(** * The faction registry of rebar-faction (src/server/handlers.ts)

    A shallow embedding of the faction handlers: the in-memory registry
    [factions], the subscriber list [callbacks], and the operations
    [init], [create], [remove], [update], [findFactionById],
    [findFactionByName], [getAllFactions] and [onUpdate], together with the
    collaborators they call (the document database, the connected players,
    the currency wallet and the spawned vehicles), which the operations
    thread as one explicit [World].

    Conventions.
    - A JavaScript string is a [string], the sequence of its characters. The
      case mapping of the language ([toLowerCase()]) is a parameter of the
      name lookup; all that is used of it is what it does to ASCII text.
    - A JavaScript number that holds an identifier or a balance is a [Z].
    - A JavaScript object used as a dictionary is a [JsObject.t]: its own
      properties in creation order, enumerated the way the language does.
    - The registry is read as a dictionary of its own properties, keyed by
      the identifiers the persistence layer hands out; what a lookup would
      inherit from Object.prototype is not part of the model.
    - One operation runs from its call to its return; the interleaving of two
      asynchronous operations is not part of the model. *)

From Stdlib Require Import ZArith List String Ascii Bool Lia DecimalString Permutation.
From Stdlib Require DecimalZ DecimalPos.
Import ListNotations.

Local Open Scope string_scope.
Local Open Scope Z_scope.

Set Implicit Arguments.

(** ** Strings *)

Module Str.

(** [String(n)] for an integer [n]. *)
Definition ofNumber (z : Z) : string := NilZero.string_of_int (Z.to_int z).

Definition isSpace (c : ascii) : bool := Ascii.eqb c " "%char.

(** [s.replace(/ /g, '')]: every U+0020 is dropped, nothing else. *)
Fixpoint removeSpaces (s : string) : string :=
  match s with
  | EmptyString => EmptyString
  | String c r => if isSpace c then removeSpaces r else String c (removeSpaces r)
  end.

Definition asciiLowerChar (c : ascii) : ascii :=
  let n := nat_of_ascii c in
  if (65 <=? n)%nat && (n <=? 90)%nat then ascii_of_nat (n + 32) else c.

(** What [toLowerCase()] makes of a string of ASCII characters: the letters
    A to Z become a to z, every other character stays. *)
Fixpoint asciiLowerCase (s : string) : string :=
  match s with
  | EmptyString => EmptyString
  | String c r => String (asciiLowerChar c) (asciiLowerCase r)
  end.

(** Every character of the string is below 128. *)
Fixpoint isAscii (s : string) : bool :=
  match s with
  | EmptyString => true
  | String c r => (nat_of_ascii c <? 128)%nat && isAscii r
  end.

Fixpoint startsWith (s p : string) {struct p} : bool :=
  match p, s with
  | EmptyString, _ => true
  | String _ _, EmptyString => false
  | String b p', String a s' => Ascii.eqb a b && startsWith s' p'
  end.

(** [s.includes(p)] *)
Fixpoint includes (s p : string) : bool :=
  startsWith s p ||
  match s with
  | EmptyString => false
  | String _ s' => includes s' p
  end.

(** The characters the language calls white space that fit in one byte. *)
Definition isWhitespace (c : ascii) : bool :=
  let n := nat_of_ascii c in
  (n =? 32)%nat || ((9 <=? n)%nat && (n <=? 13)%nat).

Fixpoint removeWhitespace (s : string) : string :=
  match s with
  | EmptyString => EmptyString
  | String c r =>
      if isWhitespace c then removeWhitespace r else String c (removeWhitespace r)
  end.

End Str.

(** ** JavaScript objects used as dictionaries *)

Module JsObject.

Section Dictionary.
Variable V : Type.

(** Own properties, in the order in which they were created. *)
Definition t := list (string * V).

(** [o[k]] *)
Fixpoint get (k : string) (o : t) : option V :=
  match o with
  | [] => None
  | (k', v) :: r => if String.eqb k k' then Some v else get k r
  end.

(** [o[k] = v]: an existing property keeps its place. *)
Fixpoint set (k : string) (v : V) (o : t) : t :=
  match o with
  | [] => [(k, v)]
  | (k', v') :: r =>
      if String.eqb k k' then (k', v) :: r else (k', v') :: set k v r
  end.

(** [delete o[k]] *)
Fixpoint delete (k : string) (o : t) : t :=
  match o with
  | [] => []
  | (k', v') :: r =>
      if String.eqb k k' then delete k r else (k', v') :: delete k r
  end.

Definition digit (c : ascii) : option N :=
  let n := N_of_ascii c in
  if (48 <=? n)%N && (n <=? 57)%N then Some (n - 48)%N else None.

Fixpoint parseDigits (acc : N) (s : string) : option N :=
  match s with
  | EmptyString => Some acc
  | String c r =>
      match digit c with
      | Some d => parseDigits (acc * 10 + d)%N r
      | None => None
      end
  end.

(** A property key is an array index when it is the canonical decimal
    form of an integer below 2^32 - 1. *)
Definition arrayIndex (k : string) : option N :=
  match k with
  | EmptyString => None
  | String c r =>
      if Ascii.eqb c "0"%char
      then match r with EmptyString => Some 0%N | _ => None end
      else match parseDigits 0 k with
           | Some n => if (n <? 4294967295)%N then Some n else None
           | None => None
           end
  end.

Fixpoint insertIndexed (n : N) (e : string * V) (l : list (N * (string * V)))
  : list (N * (string * V)) :=
  match l with
  | [] => [(n, e)]
  | (m, e') :: r =>
      if (n <? m)%N then (n, e) :: l else (m, e') :: insertIndexed n e r
  end.

Fixpoint indexed (o : t) : list (N * (string * V)) :=
  match o with
  | [] => []
  | e :: r =>
      match arrayIndex (fst e) with
      | Some n => insertIndexed n e (indexed r)
      | None => indexed r
      end
  end.

Definition named (o : t) : t :=
  filter (fun e => match arrayIndex (fst e) with Some _ => false | None => true end) o.

(** [Object.entries(o)]: array-index keys in ascending numeric order,
    then the other keys in creation order. *)
Definition entries (o : t) : t := (map snd (indexed o) ++ named o)%list.

(** [Object.values(o)] *)
Definition values (o : t) : list V := map snd (entries o).

Definition keys (o : t) : list string := map fst o.

End Dictionary.

Arguments get {V} k o.
Arguments set {V} k v o.
Arguments delete {V} k o.
Arguments entries {V} o.
Arguments values {V} o.
Arguments keys {V} o.

End JsObject.

(** ** Data model

    The interfaces [Factions], [FactionCore], [Grades] (shared/interface.ts),
    [Character] (the framework's character type) and the constant
    [DefaultRanks] (shared/defaultData.ts) are imported by handlers.ts and
    declared elsewhere; the records below hold the fields handlers.ts reads
    and writes. *)

(** Modelled from the spec: the Member record [{id, name, duty, gradeId,
    isOwner}] of the missing interface file, as handlers.ts builds it. *)
Module Member.
Record t := mk {
  id : Z;
  name : string;
  duty : bool;
  gradeId : string;
  isOwner : bool
}.
End Member.

(** Modelled from the spec: a Grade record of the missing interface file, a
    generated [gradeId] next to the content of the rank it was cloned from,
    kept here as one text. *)
Module Grades.
Record t := mk {
  gradeId : string;
  rank : string
}.
End Grades.

(** Modelled from the spec: a vehicle record [{vehicleId, ...}] of the missing
    interface file. *)
Module Vehicle.
Record t := mk { vehicleId : string }.
End Vehicle.

(** Modelled from the spec: the partial faction definition handed to
    [create]; [None] is a field that is missing (or null). *)
Module FactionCore.
Record t := mk {
  factionName : option string;
  bank : option Z
}.
End FactionCore.

(** Modelled from the spec: the Faction record of the missing interface file.
    [_id] is optional in the source ([faction._id as string]). *)
Module Factions.
Record t := mk {
  _id : option string;
  factionName : string;
  bank : Z;
  members : JsObject.t Member.t;
  grades : list Grades.t;
  locations : JsObject.t string;
  vehicles : list Vehicle.t
}.

Definition with_id (i : string) (f : t) : t :=
  mk (Some i) (factionName f) (bank f) (members f) (grades f) (locations f) (vehicles f).
End Factions.

(** The fields of a character document that handlers.ts touches. [faction]
    is [None] for null or undefined and [Some ""] for the empty string. *)
Module Character.
Record t := mk {
  _id : string;
  id : Z;
  name : string;
  faction : option string;
  bank : Z
}.

Definition with_faction (v : option string) (c : t) : t :=
  mk (_id c) (id c) (name c) v (bank c).

Definition with_bank (b : Z) (c : t) : t :=
  mk (_id c) (id c) (name c) (faction c) b.
End Character.

(** What a field of a persisted faction document can hold. *)
Inductive Value :=
| VUndefined
| VNull
| VBool (b : bool)
| VNum (n : Z)
| VStr (s : string)
| VMembers (m : JsObject.t Member.t)
| VGrades (g : list Grades.t)
| VLocations (l : JsObject.t string)
| VVehicles (v : list Vehicle.t).

(** JavaScript truthiness of the values [if (!x)] is applied to. *)
Definition truthy (s : option string) : bool :=
  match s with
  | None => false
  | Some s => negb (String.eqb s "")
  end.

(** ** The persistence adapter ([Rebar.database.useDatabase()])

    The adapter is a collaborator outside the repository. It is modelled as a
    document store with the three collections handlers.ts names. A faction
    document is its identifier and its fields; reading it back as a
    [Factions] record ([db.getMany<Factions>]) succeeds on the documents that
    have the shape of the interface. *)

Record Document := mkDocument {
  doc_id : string;
  fields : JsObject.t Value
}.

(** The [_id] of an update patch: handlers.ts passes a document identifier in
    one place and a character number in another. *)
Inductive DocumentId :=
| IdString (s : string)
| IdNumber (n : Z).

(** [{ _id, faction?, bank? }], the patches written to 'Characters'. *)
Record CharacterPatch := mkCharacterPatch {
  patch_id : DocumentId;
  patch_faction : option (option string);
  patch_bank : option Z
}.

Record Database := mkDatabase {
  FactionsCollection : list Document;
  CharactersCollection : list Character.t;
  VehiclesCollection : list string
}.

Module db.

(** The document [db.create] stores for a faction object. *)
Definition encode (f : Factions.t) : JsObject.t Value :=
  [ ("factionName", VStr (Factions.factionName f));
    ("bank", VNum (Factions.bank f));
    ("members", VMembers (Factions.members f));
    ("grades", VGrades (Factions.grades f));
    ("locations", VLocations (Factions.locations f));
    ("vehicles", VVehicles (Factions.vehicles f)) ].

(** A stored document read back at type [Factions]. *)
Definition decode (d : Document) : option Factions.t :=
  match JsObject.get "factionName" (fields d), JsObject.get "bank" (fields d),
        JsObject.get "members" (fields d), JsObject.get "grades" (fields d),
        JsObject.get "locations" (fields d), JsObject.get "vehicles" (fields d) with
  | Some (VStr n), Some (VNum b), Some (VMembers m), Some (VGrades g),
    Some (VLocations l), Some (VVehicles v) =>
      Some (Factions.mk (Some (doc_id d)) n b m g l v)
  | _, _, _, _, _, _ => None
  end.

Fixpoint decodeAll (l : list Document) : list Factions.t :=
  match l with
  | [] => []
  | d :: r =>
      match decode d with
      | Some f => f :: decodeAll r
      | None => decodeAll r
      end
  end.

(** [db.getAll<{ _id: string }>(FACTION_COLLECTION)] *)
Definition getAll (d : Database) : list string :=
  map doc_id (FactionsCollection d).

(** [db.getMany<Factions>({ _id }, FACTION_COLLECTION)]; a stored document
    that does not have the shape of the interface is left out of the
    answer. *)
Definition getManyFactionsById (i : string) (d : Database) : list Factions.t :=
  decodeAll (filter (fun x => String.eqb (doc_id x) i) (FactionsCollection d)).

Definition hasName (n : string) (x : Document) : bool :=
  match JsObject.get "factionName" (fields x) with
  | Some (VStr m) => String.eqb m n
  | _ => false
  end.

(** [db.getMany<Factions>({ factionName }, FACTION_COLLECTION)]; handlers.ts
    only looks at the length of the answer. *)
Definition getManyFactionsByName (n : string) (d : Database) : list Document :=
  filter (hasName n) (FactionsCollection d).

(** [db.getMany<Character>({ id }, 'Characters')] *)
Definition getManyCharactersById (i : Z) (d : Database) : list Character.t :=
  filter (fun c => Z.eqb (Character.id c) i) (CharactersCollection d).

Definition sameReference (a b : option string) : bool :=
  match a, b with
  | Some x, Some y => String.eqb x y
  | None, None => true
  | _, _ => false
  end.

(** [db.getMany<Character>({ faction }, 'Characters')] *)
Definition getManyCharactersByFaction (f : option string) (d : Database)
  : list Character.t :=
  filter (fun c => sameReference (Character.faction c) f) (CharactersCollection d).

(** [db.create<Factions>(faction, FACTION_COLLECTION)]. [assigned] is the
    adapter's answer: the identifier it gave the new document, or nothing when
    the insert failed. *)
Definition create (assigned : option string) (f : Factions.t) (d : Database)
  : option string * Database :=
  match assigned with
  | Some i =>
      (Some i,
       mkDatabase (FactionsCollection d ++ [mkDocument i (encode f)])
                  (CharactersCollection d) (VehiclesCollection d))
  | None => (None, d)
  end.

Definition applyCharacterPatch (p : CharacterPatch) (c : Character.t) : Character.t :=
  let c1 := match patch_faction p with
            | Some v => Character.with_faction v c
            | None => c
            end in
  match patch_bank p with
  | Some b => Character.with_bank b c1
  | None => c1
  end.

Definition matchesId (i : DocumentId) (key : string) : bool :=
  match i with
  | IdString s => String.eqb s key
  | IdNumber _ => false
  end.

(** [db.update(patch, 'Characters')]: the document whose [_id] is the patch's
    takes the patch's other fields. Document identifiers are strings, so a
    patch whose [_id] is a number selects no document. *)
Definition updateCharacter (p : CharacterPatch) (d : Database) : Database :=
  mkDatabase (FactionsCollection d)
             (map (fun c => if matchesId (patch_id p) (Character._id c)
                            then applyCharacterPatch p c else c)
                  (CharactersCollection d))
             (VehiclesCollection d).

Definition applyPatch (patch : JsObject.t Value) (x : Document) : Document :=
  mkDocument (doc_id x)
    (fold_left (fun o e => JsObject.set (fst e) (snd e) o)
               (JsObject.delete "_id" patch) (fields x)).

Definition selects (patch : JsObject.t Value) (x : Document) : bool :=
  match JsObject.get "_id" patch with
  | Some (VStr i) => String.eqb i (doc_id x)
  | _ => false
  end.

(** [db.update(patch, FACTION_COLLECTION)], when it does not throw. *)
Definition updateFaction (patch : JsObject.t Value) (d : Database) : Database :=
  mkDatabase (map (fun x => if selects patch x then applyPatch patch x else x)
                  (FactionsCollection d))
             (CharactersCollection d) (VehiclesCollection d).

(** [db.deleteDocument(id, 'Vehicles')] *)
Definition deleteVehicle (i : string) (d : Database) : Database :=
  mkDatabase (FactionsCollection d) (CharactersCollection d)
             (filter (fun v => negb (String.eqb v i)) (VehiclesCollection d)).

End db.

(** ** The runtime collaborators

    A connected player carries the live character document bound to it. The
    framework's [useCharacter(player).set(field, value)] changes the live
    document and saves the field to the 'Characters' collection;
    [useCurrency(player, 'Character').add('bank', n)] raises the player's
    bank wallet by [n]. *)

Module Player.
Record t := mk {
  handle : nat;
  valid : bool;
  document : Character.t;
  currency : Z
}.
End Player.

Module AltVehicle.
Record t := mk {
  id : Z;
  valid : bool
}.
End AltVehicle.

(** [type FactionChangeCallback = (_id: string, fieldName: string) => void].
    A subscriber is known by a tag; all that is modelled of its body is
    whether it throws on a given call. *)
Record FactionChangeCallback := mkCallback {
  subscriber : nat;
  throws : string -> string -> bool
}.

(** One call of a subscriber: who, with which identifier and field name. *)
Definition Notification := (nat * string * string)%type.

Record World := mkWorld {
  factions : JsObject.t Factions.t;
  callbacks : list FactionChangeCallback;
  database : Database;
  players : list Player.t;
  altVehicles : list AltVehicle.t;
  delivered : list Notification
}.

Definition setFactions (o : JsObject.t Factions.t) (w : World) : World :=
  mkWorld o (callbacks w) (database w) (players w) (altVehicles w) (delivered w).

Definition setCallbacks (c : list FactionChangeCallback) (w : World) : World :=
  mkWorld (factions w) c (database w) (players w) (altVehicles w) (delivered w).

Definition setDatabase (d : Database) (w : World) : World :=
  mkWorld (factions w) (callbacks w) d (players w) (altVehicles w) (delivered w).

Definition setPlayers (p : list Player.t) (w : World) : World :=
  mkWorld (factions w) (callbacks w) (database w) p (altVehicles w) (delivered w).

Definition setAltVehicles (v : list AltVehicle.t) (w : World) : World :=
  mkWorld (factions w) (callbacks w) (database w) (players w) v (delivered w).

Definition setDelivered (n : list Notification) (w : World) : World :=
  mkWorld (factions w) (callbacks w) (database w) (players w) (altVehicles w) n.

(** [getter.byCharacter(_id)] *)
Definition byCharacter (i : string) (w : World) : option Player.t :=
  find (fun p => String.eqb (Character._id (Player.document p)) i) (players w).

Definition replacePlayer (p : Player.t) (w : World) : World :=
  setPlayers (map (fun q => if Nat.eqb (Player.handle q) (Player.handle p) then p else q)
                  (players w)) w.

(** [await character.set('faction', v)] for the live document of [p]. *)
Definition characterSetFaction (p : Player.t) (v : string) (w : World) : World :=
  let doc := Character.with_faction (Some v) (Player.document p) in
  let w1 := replacePlayer
              (Player.mk (Player.handle p) (Player.valid p) doc (Player.currency p)) w in
  setDatabase
    (db.updateCharacter
       (mkCharacterPatch (IdString (Character._id doc)) (Some (Some v)) None)
       (database w1)) w1.

(** [await useCurrency(p, 'Character').add('bank', n)] *)
Definition currencyAddBank (h : nat) (n : Z) (w : World) : World :=
  setPlayers (map (fun q => if Nat.eqb (Player.handle q) h
                            then Player.mk (Player.handle q) (Player.valid q)
                                           (Player.document q) (Player.currency q + n)
                            else q)
                  (players w)) w.

(** ** The handlers *)

Record Result := mkResult {
  status : bool;
  response : string
}.

(** How an operation ends: it returns its tagged result, or an exception
    leaves it. *)
Inductive Completion :=
| Returns (r : Result)
| Throws.

Module InternalFunctions.

(** [faction._id as string] used as a property key. *)
Definition key (faction : Factions.t) : string :=
  match Factions._id faction with
  | Some i => i
  | None => "undefined"
  end.

(** [static update(faction) { factions[faction._id as string] = faction; }] *)
Definition update (faction : Factions.t) (w : World) : World :=
  setFactions (JsObject.set (key faction) faction (factions w)) w.

End InternalFunctions.

Definition initStep (w : World) (i : string) : World :=
  match db.getManyFactionsById i (database w) with
  | fullFaction :: _ => InternalFunctions.update fullFaction w
  | [] => w
  end.

(** [async function init()] *)
Definition init (w : World) : World :=
  let factionList := db.getAll (database w) in
  if (List.length factionList =? 0)%nat then w
  else fold_left initStep factionList w.

(** What [create] takes from outside the registry: the rank template
    [DefaultRanks], the salted hash [Rebar.utility.sha256Random] applied to
    the serialised rank (the salt is the position of the call), and the
    answer of [db.create]. *)
Record CreateEnv := mkCreateEnv {
  DefaultRanks : list Grades.t;
  sha256Random : nat -> Grades.t -> string;
  document : option string
}.

Fixpoint cloneRanks (env : CreateEnv) (n : nat) (ranks : list Grades.t) : list Grades.t :=
  match ranks with
  | [] => []
  | rank :: r =>
      Grades.mk (sha256Random env n rank) (Grades.rank rank) :: cloneRanks env (S n) r
  end.

Definition missingName : string := "Cannot create faction, missing faction name.".
Definition noCharacter (i : Z) : string :=
  "Could not find a character with identifier: " ++ Str.ofNumber i.
Definition alreadyInFaction : string := "Character is already in a faction.".
Definition cannotInsert : string := "Cannot insert faction into database.".

(** [async function create(characterOwnerID, _faction)] *)
Definition create (env : CreateEnv) (characterOwnerID : Z) (_faction : FactionCore.t)
  (w : World) : Completion * World :=
  if negb (truthy (FactionCore.factionName _faction)) then
    (Returns (mkResult false missingName), w)
  else
    match db.getManyCharactersById characterOwnerID (database w) with
    | [] => (Returns (mkResult false (noCharacter characterOwnerID)), w)
    | character :: _ =>
        if truthy (Character.faction character) then
          (Returns (mkResult false alreadyInFaction), w)
        else
          let defaultRanks := cloneRanks env 0 (DefaultRanks env) in
          match defaultRanks with
          | [] => (Throws, w)
          | first :: _ =>
              let name := match FactionCore.factionName _faction with
                          | Some n => n
                          | None => ""
                          end in
              let faction :=
                Factions.mk None name
                  (match FactionCore.bank _faction with Some b => b | None => 0 end)
                  [ (Str.ofNumber characterOwnerID,
                     Member.mk characterOwnerID (Character.name character) true
                               (Grades.gradeId first) true) ]
                  defaultRanks [] [] in
              let existingFactions := db.getManyFactionsByName name (database w) in
              if (0 <? List.length existingFactions)%nat then
                (Returns (mkResult false cannotInsert), w)
              else
                let (document, d1) := db.create (document env) faction (database w) in
                if negb (truthy document) then
                  (Returns (mkResult false cannotInsert), setDatabase d1 w)
                else
                  let factionId := match document with Some i => i | None => "" end in
                  let faction := Factions.with_id factionId faction in
                  let w1 := InternalFunctions.update faction (setDatabase d1 w) in
                  let character := Character.with_faction (Some factionId) character in
                  let w2 := setDatabase
                              (db.updateCharacter
                                 (mkCharacterPatch (IdString (Character._id character))
                                    (Some (Character.faction character)) None)
                                 (database w1)) w1 in
                  (Returns (mkResult true factionId), w2)
          end
    end.

Definition notFound (i : string) : string := "Faction was not found with id: " ++ i.
Definition deleted : string := "Deleted faction successfully".

(** [n === ownerIdentifier], where [ownerIdentifier] may be undefined. *)
Definition isOwnerIdentifier (n : Z) (ownerIdentifier : option Z) : bool :=
  match ownerIdentifier with
  | Some o => Z.eqb n o
  | None => false
  end.

(** The [else if (member.id === ownerIdentifier)] branch of the loop in
    [remove]: the patch is keyed by [ownerIdentifier], a character number. *)
Definition creditOffline (faction : Factions.t) (ownerIdentifier : option Z)
  (w : World) (member : Character.t) : World :=
  match ownerIdentifier with
  | Some o =>
      if Z.eqb (Character.id member) o then
        let bank := Character.bank member + Factions.bank faction in
        setDatabase
          (db.updateCharacter (mkCharacterPatch (IdNumber o) None (Some bank))
                              (database w)) w
      else w
  | None => w
  end.

(** The body of [for (const member of members)] in [remove]. The assignment
    [member.faction = null] changes the fetched copy only, and the list
    [onlinePlayers] is never read; neither leaves a trace in the world. *)
Definition detachMember (faction : Factions.t) (ownerIdentifier : option Z)
  (w : World) (member : Character.t) : World :=
  match byCharacter (Character._id member) w with
  | Some xPlayer =>
      if Player.valid xPlayer then
        let w1 := characterSetFaction xPlayer "" w in
        if isOwnerIdentifier (Character.id (Player.document xPlayer)) ownerIdentifier
        then currencyAddBank (Player.handle xPlayer) (Factions.bank faction) w1
        else w1
      else creditOffline faction ownerIdentifier w member
  | None => creditOffline faction ownerIdentifier w member
  end.

Definition spawned (i : string) (v : AltVehicle.t) : bool :=
  AltVehicle.valid v && String.eqb (Str.ofNumber (AltVehicle.id v)) i.

(** [altVehicle.destroy()] for the first spawned vehicle with that
    identifier. *)
Fixpoint destroyFirst (i : string) (l : list AltVehicle.t) : list AltVehicle.t :=
  match l with
  | [] => []
  | v :: r => if spawned i v then r else v :: destroyFirst i r
  end.

(** The body of [for (const vehicle of faction.vehicles)] in [remove]. *)
Definition disposeVehicle (w : World) (vehicle : Vehicle.t) : World :=
  let i := Vehicle.vehicleId vehicle in
  let w1 := setAltVehicles (destroyFirst i (altVehicles w)) w in
  setDatabase (db.deleteVehicle i (database w1)) w1.

(** [async function remove(_id)] *)
Definition remove (_id : string) (w : World) : Result * World :=
  match JsObject.get _id (factions w) with
  | None => (mkResult false (notFound _id), w)
  | Some faction =>
      let w1 := setFactions (JsObject.delete _id (factions w)) w in
      let ownerIdentifier :=
        option_map Member.id
          (find Member.isOwner (JsObject.values (Factions.members faction))) in
      let members :=
        db.getManyCharactersByFaction (Factions._id faction) (database w1) in
      let w2 := fold_left (detachMember faction ownerIdentifier) members w1 in
      let w3 := fold_left disposeVehicle (Factions.vehicles faction) w2 in
      (mkResult true deleted, w3)
  end.

(** [callbacks.forEach((cb) => cb(_id, fieldName))]: the calls made, and
    whether the loop reached its end ([false] when a subscriber threw). *)
Fixpoint forEach (cbs : list FactionChangeCallback) (_id fieldName : string)
  : list Notification * bool :=
  match cbs with
  | [] => ([], true)
  | cb :: r =>
      if throws cb _id fieldName then ([(subscriber cb, _id, fieldName)], false)
      else let (calls, done) := forEach r _id fieldName in
           ((subscriber cb, _id, fieldName) :: calls, done)
  end.

(** [partialObject[fieldName]] *)
Definition field (fieldName : string) (partialObject : JsObject.t Value) : Value :=
  match JsObject.get fieldName partialObject with
  | Some v => v
  | None => VUndefined
  end.

(** [{ _id, [fieldName]: partialObject[fieldName] }] *)
Definition patchOf (_id fieldName : string) (partialObject : JsObject.t Value)
  : JsObject.t Value :=
  JsObject.set fieldName (field fieldName partialObject) [("_id", VStr _id)].

Definition updated : string := "Updated Faction Data".
Definition updateFailed : string := "Failed to update faction data.".

(** [async function update(_id, fieldName, partialObject)]. [dbThrows] tells
    whether [db.update] raises; the handler ignores the value it returns. *)
Definition update (dbThrows : bool) (_id fieldName : string)
  (partialObject : JsObject.t Value) (w : World) : Result * World :=
  match JsObject.get _id (factions w) with
  | None => (mkResult false (notFound _id), w)
  | Some faction =>
      if dbThrows then (mkResult false updateFailed, w)
      else
        let w1 := setDatabase
                    (db.updateFaction (patchOf _id fieldName partialObject)
                                      (database w)) w in
        let (calls, done) := forEach (callbacks w1) _id fieldName in
        let w2 := setDelivered (delivered w1 ++ calls) w1 in
        if done then (mkResult true updated, w2)
        else (mkResult false updateFailed, w2)
  end.

(** [function findFactionById(_id)] *)
Definition findFactionById (_id : string) (w : World) : option Factions.t :=
  JsObject.get _id (factions w).

(** [s.replace(/ /g, '').toLowerCase()]. [toLowerCase] is the case mapping
    of the language, [String.prototype.toLowerCase], which the handlers take
    as it comes. *)
Definition normalize (toLowerCase : string -> string) (s : string) : string :=
  toLowerCase (Str.removeSpaces s).

Definition nameMatches (toLowerCase : string -> string) (nameOrPartialName : string)
  (faction : Factions.t) : bool :=
  Str.includes (normalize toLowerCase (Factions.factionName faction))
               (normalize toLowerCase nameOrPartialName).

(** [function findFactionByName(nameOrPartialName)] *)
Definition findFactionByName (toLowerCase : string -> string)
  (nameOrPartialName : string) (w : World) : option Factions.t :=
  find (nameMatches toLowerCase nameOrPartialName) (JsObject.values (factions w)).

(** What is known of the case mapping: on a string of ASCII characters it is
    the ASCII lowering. *)
Definition lowersAscii (toLowerCase : string -> string) : Prop :=
  forall s, Str.isAscii s = true -> toLowerCase s = Str.asciiLowerCase s.

(** [function getAllFactions()] *)
Definition getAllFactions (w : World) : list Factions.t :=
  JsObject.values (factions w).

(** [function onUpdate(callback)] *)
Definition onUpdate (callback : FactionChangeCallback) (w : World) : World :=
  setCallbacks (callbacks w ++ [callback]) w.

(** ** The specification's reading of the name lookup

    The specification describes the lookup as a case-insensitive,
    whitespace-stripped substring match. [specNameMatches] follows those
    words; it is compared with [nameMatches] below. *)

Definition specNormalize (toLowerCase : string -> string) (s : string) : string :=
  toLowerCase (Str.removeWhitespace s).

Definition specNameMatches (toLowerCase : string -> string) (query : string)
  (faction : Factions.t) : bool :=
  Str.includes (specNormalize toLowerCase (Factions.factionName faction))
               (specNormalize toLowerCase query).

Definition specFindFactionByName (toLowerCase : string -> string) (query : string)
  (w : World) : option Factions.t :=
  find (specNameMatches toLowerCase query) (JsObject.values (factions w)).

(** ** Properties of a world *)

(** Each key of the registry is the [_id] of the record stored under it. *)
Definition keyedById (o : JsObject.t Factions.t) : Prop :=
  forall k f, In (k, f) o -> Factions._id f = Some k.

(** The registry invariant: keys are unique, each equals the [_id] of its
    record, and each is the identifier of a stored faction document. *)
Definition RegistryInvariant (w : World) : Prop :=
  NoDup (JsObject.keys (factions w)) /\
  keyedById (factions w) /\
  (forall k, In k (JsObject.keys (factions w)) -> In k (db.getAll (database w))).

Definition succeeded (c : Completion) : bool :=
  match c with
  | Returns r => status r
  | Throws => false
  end.

(** The persisted [faction] reference of the character document [i]. *)
Definition persistedFaction (i : string) (w : World) : option (option string) :=
  option_map Character.faction
    (find (fun c => String.eqb (Character._id c) i)
          (CharactersCollection (database w))).

Definition persistedBank (i : string) (w : World) : option Z :=
  option_map Character.bank
    (find (fun c => String.eqb (Character._id c) i)
          (CharactersCollection (database w))).

Definition storedDocument (i : string) (w : World) : option Document :=
  find (fun d => String.eqb (doc_id d) i) (FactionsCollection (database w)).

Definition storedField (i fieldName : string) (w : World) : option Value :=
  match storedDocument i w with
  | Some d => JsObject.get fieldName (fields d)
  | None => None
  end.

Definition notifyAll (cbs : list FactionChangeCallback) (_id fieldName : string)
  : list Notification :=
  map (fun cb => (subscriber cb, _id, fieldName)) cbs.

(** What the cascade of [remove] and the character writes of [create] leave
    alone: the registry, the subscribers, the delivered notifications and the
    stored faction documents. *)
Definition registryFrame (w w' : World) : Prop :=
  factions w' = factions w /\
  callbacks w' = callbacks w /\
  delivered w' = delivered w /\
  FactionsCollection (database w') = FactionsCollection (database w).

(** The names every object inherits from [Object.prototype]. The guard
    [factions[_id]] of the handlers is truthy for them whatever the registry
    holds; no identifier of the persistence layer is among them. *)
Definition inheritedKeys : list string :=
  [ "constructor"; "hasOwnProperty"; "isPrototypeOf"; "propertyIsEnumerable";
    "toLocaleString"; "toString"; "valueOf"; "__proto__";
    "__defineGetter__"; "__defineSetter__"; "__lookupGetter__"; "__lookupSetter__" ].

(** The write of [update] succeeded: [db.update] did not throw and its patch
    reached a stored faction document. *)
Definition persistenceSucceeds (dbThrows : bool) (patch : JsObject.t Value)
  (w : World) : Prop :=
  dbThrows = false /\
  exists d, In d (FactionsCollection (database w)) /\ db.selects patch d = true.

(** A stored character after [remove]: as before, or with the [faction]
    reference replaced by the empty string. *)
Definition onlyCleared (c c' : Character.t) : Prop :=
  c' = c \/ c' = Character.with_faction (Some "") c.

(** The identifiers of the vehicles a faction lists. *)
Definition vehicleIds (faction : Factions.t) : list string :=
  map Vehicle.vehicleId (Factions.vehicles faction).

(** What [remove] never changes of a connected player: the handle, the
    validity, and the [_id] and number of the live character document. *)
Definition playerIdentity (p : Player.t) : nat * bool * string * Z :=
  (Player.handle p, Player.valid p,
   Character._id (Player.document p), Character.id (Player.document p)).

Definition handleAndWallet (p : Player.t) : nat * Z :=
  (Player.handle p, Player.currency p).

(** The wallet of the connected player with handle [h]. *)
Definition walletOf (h : nat) (w : World) : option Z :=
  option_map Player.currency
    (find (fun p => Nat.eqb (Player.handle p) h) (players w)).

(** Whether the loop of [remove], visiting [member], credits the wallet of
    the player with handle [h]: the player found for the member is valid,
    its live document carries the owner's number, and its handle is [h]. *)
Definition creditsMember (owner : option Z) (w : World) (h : nat)
  (member : Character.t) : bool :=
  match byCharacter (Character._id member) w with
  | Some p =>
      Player.valid p && isOwnerIdentifier (Character.id (Player.document p)) owner
      && Nat.eqb (Player.handle p) h
  | None => false
  end.

(** The sum the loop of [remove] credits to the wallet with handle [h]. *)
Definition creditsDue (bank : Z) (owner : option Z) (w : World)
  (members : list Character.t) (h : nat) : Z :=
  fold_right (fun m acc => (if creditsMember owner w h m then bank else 0) + acc)
             0 members.

(** ** A small world used in the examples

    One faction, "Red  Team", owned by character 7, with character 8 as a
    second member, one vehicle and 1000 in the bank. *)

Definition redTeam : Factions.t :=
  Factions.mk (Some "f1") "Red  Team" 1000
    [ ("7", Member.mk 7 "Ana" true "g0" true);
      ("8", Member.mk 8 "Bo" false "g0" false) ]
    [ Grades.mk "g0" "Leader" ] [] [ Vehicle.mk "15" ].

Definition ana : Character.t := Character.mk "c7" 7 "Ana" (Some "f1") 50.
Definition bo : Character.t := Character.mk "c8" 8 "Bo" (Some "f1") 5.
Definition cy : Character.t := Character.mk "c9" 9 "Cy" None 0.

Definition quiet (n : nat) : FactionChangeCallback := mkCallback n (fun _ _ => false).
Definition faulty (n : nat) : FactionChangeCallback := mkCallback n (fun _ _ => true).

Definition exampleDatabase : Database :=
  mkDatabase [ mkDocument "f1" (db.encode redTeam) ] [ ana; bo; cy ] [ "15" ].

(** Nobody is connected. *)
Definition offlineWorld : World :=
  mkWorld [ ("f1", redTeam) ] [ quiet 1; quiet 2 ] exampleDatabase []
          [ AltVehicle.mk 15 true ] [].

(** The owner, character 7, is connected with 50 in the wallet. *)
Definition onlineWorld : World :=
  mkWorld [ ("f1", redTeam) ] [ quiet 1; quiet 2 ] exampleDatabase
          [ Player.mk 1 true ana 50 ] [ AltVehicle.mk 15 true ] [].

(** The example world after the faction document was taken out of the
    collection behind the registry's back. *)
Definition orphanWorld : World :=
  setDatabase (mkDatabase [] [ ana; bo; cy ] [ "15" ]) offlineWorld.

(** The example world with a first subscriber that throws. *)
Definition faultyWorld : World := setCallbacks [ faulty 1; quiet 2 ] offlineWorld.

Definition exampleEnv (assigned : option string) : CreateEnv :=
  mkCreateEnv [ Grades.mk "" "Leader"; Grades.mk "" "Member" ]
              (fun n _ => "g" ++ Str.ofNumber (Z.of_nat n)) assigned.

Definition lostMC : FactionCore.t := FactionCore.mk (Some "Lost MC") None.

(** The example world with a second faction, "Lost MC", created for
    character 9 under the identifier "f2". *)
Definition twoFactions : World :=
  snd (create (exampleEnv (Some "f2")) 9 lostMC offlineWorld).

(** * Lemmas *)

(** ** Dictionaries *)

Section DictionaryFacts.
Variable V : Type.
Implicit Types (o : JsObject.t V) (k : string) (v : V).

Lemma get_set_same k v o : JsObject.get k (JsObject.set k v o) = Some v.
Proof.
  induction o as [|[k' v'] r IH]; simpl.
  - now rewrite String.eqb_refl.
  - destruct (String.eqb k k') eqn:E; simpl; rewrite E; auto.
Qed.

Lemma get_set_other k k' v o :
  k <> k' -> JsObject.get k' (JsObject.set k v o) = JsObject.get k' o.
Proof.
  intros Hne. induction o as [|[k1 v1] r IH]; simpl.
  - destruct (String.eqb_spec k' k); congruence.
  - destruct (String.eqb_spec k k1); simpl.
    + subst k1. destruct (String.eqb_spec k' k); congruence.
    + now rewrite IH.
Qed.

Lemma get_delete_same k o : JsObject.get k (JsObject.delete k o) = None.
Proof.
  induction o as [|[k' v'] r IH]; simpl; auto.
  destruct (String.eqb k k') eqn:E; simpl; auto. now rewrite E.
Qed.

Lemma get_In k v o : JsObject.get k o = Some v -> In (k, v) o.
Proof.
  induction o as [|[k' v'] r IH]; simpl; try discriminate.
  destruct (String.eqb_spec k k'); intros H.
  - left. congruence.
  - right. auto.
Qed.

Lemma in_set k v o e :
  In e (JsObject.set k v o) -> e = (k, v) \/ In e o.
Proof.
  induction o as [|[k' v'] r IH]; simpl.
  - intros [H|[]]; auto.
  - destruct (String.eqb_spec k k'); simpl.
    + subst k'. intros [H|H]; auto.
    + intros [H|H]; auto. destruct (IH H); auto.
Qed.

Lemma keys_set k v o k' :
  In k' (JsObject.keys (JsObject.set k v o)) <-> k' = k \/ In k' (JsObject.keys o).
Proof.
  unfold JsObject.keys. induction o as [|[k1 v1] r IH]; simpl.
  - intuition.
  - destruct (String.eqb_spec k k1); simpl.
    + subst k1. intuition.
    + rewrite IH. intuition.
Qed.

Lemma NoDup_keys_set k v o :
  NoDup (JsObject.keys o) -> NoDup (JsObject.keys (JsObject.set k v o)).
Proof.
  unfold JsObject.keys. induction o as [|[k1 v1] r IH]; simpl; intros H.
  - constructor; [intros []|constructor].
  - inversion H as [|? ? Hn Hr]; subst.
    destruct (String.eqb_spec k k1); simpl.
    + constructor; auto.
    + constructor; [|now apply IH]. intros Hin.
      apply (keys_set k v r k1) in Hin.
      destruct Hin as [E|Hin]; [symmetry in E; contradiction|exact (Hn Hin)].
Qed.

Lemma in_delete k o e : In e (JsObject.delete k o) -> In e o /\ fst e <> k.
Proof.
  induction o as [|[k' v'] r IH]; simpl; [tauto|].
  destruct (String.eqb_spec k k'); simpl.
  - intros H. destruct (IH H). auto.
  - intros [H|H].
    + subst e. simpl. split; auto.
    + destruct (IH H). auto.
Qed.

Lemma NoDup_keys_delete k o :
  NoDup (JsObject.keys o) -> NoDup (JsObject.keys (JsObject.delete k o)).
Proof.
  unfold JsObject.keys. induction o as [|[k1 v1] r IH]; simpl; intros H; auto.
  inversion H as [|? ? Hn Hr]; subst.
  destruct (String.eqb k k1); simpl; auto.
  constructor; auto. intros Hin. apply Hn.
  apply in_map_iff in Hin. destruct Hin as [e [He Hin]].
  apply in_delete in Hin. apply in_map_iff. exists e. tauto.
Qed.

Lemma insertIndexed_perm n (e : string * V) l :
  Permutation (JsObject.insertIndexed n e l) ((n, e) :: l).
Proof.
  induction l as [|[m e'] r IH]; simpl; auto.
  destruct (n <? m)%N; auto.
  rewrite IH. apply perm_swap.
Qed.

Lemma entries_perm o : Permutation (JsObject.entries o) o.
Proof.
  unfold JsObject.entries, JsObject.named.
  induction o as [|e r IH]; simpl; auto.
  destruct (JsObject.arrayIndex (fst e)) as [n|].
  - rewrite insertIndexed_perm. simpl. now constructor.
  - apply Permutation_sym, Permutation_cons_app, Permutation_sym, IH.
Qed.

Lemma in_values v o : In v (JsObject.values o) <-> exists k, In (k, v) o.
Proof.
  unfold JsObject.values. rewrite in_map_iff. split.
  - intros [[k v'] [Hv Hin]]. simpl in Hv. subst v'. exists k.
    eapply Permutation_in; [apply entries_perm|exact Hin].
  - intros [k Hin]. exists (k, v). split; auto.
    eapply Permutation_in; [apply Permutation_sym, entries_perm|exact Hin].
Qed.

End DictionaryFacts.

(** ** Strings *)

Lemma startsWith_iff (s p : string) :
  Str.startsWith s p = true <-> exists post, s = (p ++ post)%string.
Proof.
  revert s. induction p as [|b p IH]; intros s; simpl.
  - split; [exists s; reflexivity|reflexivity].
  - destruct s as [|a s]; simpl.
    + split; [discriminate|intros [post H]; discriminate].
    + rewrite andb_true_iff, Ascii.eqb_eq, IH. split.
      * intros [-> [post ->]]. now exists post.
      * intros [post H]. injection H as -> ->. split; [reflexivity|now exists post].
Qed.

Lemma includes_iff (s p : string) :
  Str.includes s p = true <-> exists pre post, s = (pre ++ p ++ post)%string.
Proof.
  induction s as [|a s IH].
  - simpl. rewrite orb_false_r, startsWith_iff. split.
    + intros [post H]. now exists EmptyString, post.
    + intros [pre [post H]]. destruct pre; [now exists post|discriminate].
  - cbn [Str.includes]. rewrite orb_true_iff, startsWith_iff, IH. split.
    + intros [[post H]|[pre [post H]]].
      * now exists EmptyString, post.
      * exists (String a pre), post. simpl. now rewrite H.
    + intros [pre [post H]]. destruct pre as [|c pre]; simpl in H.
      * left. now exists post.
      * right. injection H as _ H. now exists pre, post.
Qed.

Lemma removeSpaces_idem (s : string) :
  Str.removeSpaces (Str.removeSpaces s) = Str.removeSpaces s.
Proof.
  induction s as [|c s IH]; simpl; auto.
  destruct (Str.isSpace c) eqn:E; simpl; auto. now rewrite E, IH.
Qed.

Lemma removeSpaces_ascii (s : string) :
  Str.isAscii s = true -> Str.isAscii (Str.removeSpaces s) = true.
Proof.
  induction s as [|c s IH]; simpl; auto.
  intros H. apply andb_true_iff in H. destruct H as [Hc Hs].
  destruct (Str.isSpace c); simpl; auto. now rewrite Hc, IH.
Qed.

(** On ASCII text the normal form of the lookup is the ASCII one. *)
Lemma normalize_ascii (toLowerCase : string -> string) (s : string) :
  lowersAscii toLowerCase ->
  Str.isAscii s = true ->
  normalize toLowerCase s = Str.asciiLowerCase (Str.removeSpaces s).
Proof.
  intros Hl Hs. unfold normalize. apply Hl. now apply removeSpaces_ascii.
Qed.

(** ** Lists *)

Lemma find_first (A : Type) (p : A -> bool) (l : list A) (x : A) :
  find p l = Some x ->
  exists before after,
    l = (before ++ x :: after)%list /\ p x = true /\
    forall y, In y before -> p y = false.
Proof.
  induction l as [|a l IH]; simpl; [discriminate|].
  destruct (p a) eqn:E.
  - intros H. injection H as ->. exists [], l. simpl. tauto.
  - intros H. destruct (IH H) as [before [after [-> [Hx Hb]]]].
    exists (a :: before), after. simpl. repeat split; auto.
    intros y [<-|Hy]; auto.
Qed.

Lemma find_none_iff (A : Type) (p : A -> bool) (l : list A) :
  find p l = None <-> forall y, In y l -> p y = false.
Proof.
  split; [apply find_none|].
  induction l as [|a l IH]; simpl; auto.
  intros H. rewrite (H a (or_introl eq_refl)). apply IH. auto.
Qed.

Lemma find_pointwise (A : Type) (p q : A -> bool) (l : list A) :
  (forall a, p a = q a) -> find p l = find q l.
Proof.
  intros H. induction l as [|a l IH]; simpl; auto. now rewrite H, IH.
Qed.

Lemma fold_left_preserves (A B : Type) (P : A -> Prop) (step : A -> B -> A) :
  (forall a b, P a -> P (step a b)) ->
  forall l a, P a -> P (fold_left step l a).
Proof.
  intros Hstep l. induction l as [|b l IH]; simpl; auto.
Qed.

(** ** Name lookup *)

(** What the query contributes to the lookup is its normal form. *)
Lemma findFactionByName_normal_form (toLowerCase : string -> string) (q q' : string)
  (w : World) :
  normalize toLowerCase q' = normalize toLowerCase q ->
  findFactionByName toLowerCase q' w = findFactionByName toLowerCase q w.
Proof.
  intros H. unfold findFactionByName. apply find_pointwise. intros f.
  unfold nameMatches. now rewrite H.
Qed.

(** The lookup of "red team" in the example world, whatever the case
    mapping does outside ASCII. *)
Lemma findFactionByName_red_team (toLowerCase : string -> string) :
  lowersAscii toLowerCase ->
  findFactionByName toLowerCase "red team" offlineWorld = Some redTeam.
Proof.
  intros Hl.
  change (findFactionByName toLowerCase "red team" offlineWorld)
    with (if Str.includes (normalize toLowerCase "Red  Team")
                          (normalize toLowerCase "red team")
          then Some redTeam else None).
  now rewrite !(normalize_ascii _ Hl) by reflexivity.
Qed.

(** A tab is not a space: the query "red<TAB>team" finds nothing, while the
    lookup the specification describes finds "Red  Team". *)
Lemma findFactionByName_tab (toLowerCase : string -> string) :
  lowersAscii toLowerCase ->
  specFindFactionByName toLowerCase ("red" ++ String "009"%char "team") offlineWorld =
    Some redTeam /\
  findFactionByName toLowerCase ("red" ++ String "009"%char "team") offlineWorld = None.
Proof.
  intros Hl. split.
  - change (specFindFactionByName toLowerCase ("red" ++ String "009"%char "team")
              offlineWorld)
      with (if Str.includes (toLowerCase "RedTeam") (toLowerCase "redteam")
            then Some redTeam else None).
    now rewrite !Hl by reflexivity.
  - change (findFactionByName toLowerCase ("red" ++ String "009"%char "team") offlineWorld)
      with (if Str.includes (toLowerCase "RedTeam")
                            (toLowerCase ("red" ++ String "009"%char "team"))
            then Some redTeam else None).
    now rewrite !Hl by reflexivity.
Qed.

(** C7 (as amended). For every query, [findFactionByName] matches a faction
    when the query, with its space characters (U+0020) removed and then put
    through [toLowerCase()], is a substring of the faction name treated the
    same way; it returns the first matching faction in the enumeration order
    of the store and null exactly when no stored faction matches. Spaces in
    the query never change the answer; two ASCII queries that differ only in
    letter case and spaces get the same answer, and two ASCII names that
    differ only in letter case and spaces match the same queries; the query
    "red team" finds the stored name "Red  Team". *)
Theorem findFactionByName_first_space_stripped_match (toLowerCase : string -> string)
  (q : string) (w : World) :
  lowersAscii toLowerCase ->
  (forall f, nameMatches toLowerCase q f = true <->
     exists pre post,
       toLowerCase (Str.removeSpaces (Factions.factionName f)) =
       (pre ++ toLowerCase (Str.removeSpaces q) ++ post)%string) /\
  (forall f, findFactionByName toLowerCase q w = Some f ->
     exists before after,
       getAllFactions w = (before ++ f :: after)%list /\
       nameMatches toLowerCase q f = true /\
       forall g, In g before -> nameMatches toLowerCase q g = false) /\
  (findFactionByName toLowerCase q w = None <->
     forall k g, In (k, g) (factions w) -> nameMatches toLowerCase q g = false) /\
  findFactionByName toLowerCase (Str.removeSpaces q) w = findFactionByName toLowerCase q w /\
  (forall q',
     Str.isAscii q = true -> Str.isAscii q' = true ->
     Str.asciiLowerCase (Str.removeSpaces q') = Str.asciiLowerCase (Str.removeSpaces q) ->
     findFactionByName toLowerCase q' w = findFactionByName toLowerCase q w) /\
  (forall f g,
     Str.isAscii (Factions.factionName f) = true ->
     Str.isAscii (Factions.factionName g) = true ->
     Str.asciiLowerCase (Str.removeSpaces (Factions.factionName f)) =
     Str.asciiLowerCase (Str.removeSpaces (Factions.factionName g)) ->
     nameMatches toLowerCase q f = nameMatches toLowerCase q g) /\
  normalize toLowerCase "ABCDEFGHIJKLM nopqrstuvwxyz NOPQRSTUVWXYZ 0-9 _" =
    "abcdefghijklmnopqrstuvwxyznopqrstuvwxyz0-9_" /\
  findFactionByName toLowerCase "red team" offlineWorld = Some redTeam.
Proof.
  intros Hl. repeat split.
  - intros H. now apply includes_iff.
  - intros H. now apply includes_iff.
  - intros f H. now apply find_first.
  - intros H k g Hin. unfold findFactionByName in H.
    apply (proj1 (find_none_iff _ _) H). apply in_values. now exists k.
  - intros H. apply find_none_iff. intros g Hg.
    apply in_values in Hg. destruct Hg as [k Hk]. eauto.
  - apply findFactionByName_normal_form. unfold normalize.
    now rewrite removeSpaces_idem.
  - intros q' Hq Hq' H. apply findFactionByName_normal_form.
    now rewrite !(normalize_ascii _ Hl).
  - intros f g Hf Hg H. unfold nameMatches.
    now rewrite (normalize_ascii _ Hl Hf), (normalize_ascii _ Hl Hg), H.
  - now rewrite (normalize_ascii _ Hl) by reflexivity.
  - now apply findFactionByName_red_team.
Qed.

(** C7 (witness): the query "red team" under the ASCII case mapping. *)
Lemma findFactionByName_first_space_stripped_match_witness :
  lowersAscii Str.asciiLowerCase /\
  findFactionByName Str.asciiLowerCase (Str.removeSpaces "red team") offlineWorld =
    findFactionByName Str.asciiLowerCase "red team" offlineWorld /\
  (forall q',
     Str.isAscii "red team" = true -> Str.isAscii q' = true ->
     Str.asciiLowerCase (Str.removeSpaces q') =
       Str.asciiLowerCase (Str.removeSpaces "red team") ->
     findFactionByName Str.asciiLowerCase q' offlineWorld =
       findFactionByName Str.asciiLowerCase "red team" offlineWorld) /\
  findFactionByName Str.asciiLowerCase "red team" offlineWorld = Some redTeam.
Proof.
  assert (Hl : lowersAscii Str.asciiLowerCase) by (intros s _; reflexivity).
  destruct (@findFactionByName_first_space_stripped_match Str.asciiLowerCase "red team"
              offlineWorld Hl) as [_ [_ [_ [H4 [H5 [_ [_ H7]]]]]]].
  repeat split; assumption.
Defined.

(** C7 (counterexample). A tab in the query is white space, so the lookup the
    specification describes finds "Red  Team" for "red<TAB>team"; the handler
    removes U+0020 only and finds nothing. Both strings are ASCII, so this is
    so for every case mapping that lowers ASCII text as [toLowerCase()]
    does. *)
Lemma findFactionByName_keeps_tabs :
  (specFindFactionByName Str.asciiLowerCase ("red" ++ String "009"%char "team")
     offlineWorld = Some redTeam /\
   findFactionByName Str.asciiLowerCase ("red" ++ String "009"%char "team")
     offlineWorld = None) /\
  (forall toLowerCase, lowersAscii toLowerCase ->
     specFindFactionByName toLowerCase ("red" ++ String "009"%char "team")
       offlineWorld = Some redTeam /\
     findFactionByName toLowerCase ("red" ++ String "009"%char "team")
       offlineWorld = None).
Proof.
  split; [split; reflexivity|]. apply findFactionByName_tab.
Qed.

(** ** Remove *)

Lemma registryFrame_refl (w : World) : registryFrame w w.
Proof. repeat split. Qed.

Lemma registryFrame_trans (a b c : World) :
  registryFrame a b -> registryFrame b c -> registryFrame a c.
Proof.
  unfold registryFrame. intros [H1 [H2 [H3 H4]]] [K1 [K2 [K3 K4]]].
  repeat split; congruence.
Qed.

Lemma creditOffline_frame faction owner w member :
  registryFrame w (creditOffline faction owner w member).
Proof.
  unfold creditOffline. destruct owner as [o|]; [|apply registryFrame_refl].
  destruct (Character.id member =? o); [|apply registryFrame_refl].
  repeat split.
Qed.

Lemma detachMember_frame faction owner w member :
  registryFrame w (detachMember faction owner w member).
Proof.
  unfold detachMember.
  destruct (byCharacter (Character._id member) w) as [p|];
    [|apply creditOffline_frame].
  destruct (Player.valid p); [|apply creditOffline_frame].
  destruct (isOwnerIdentifier _ owner); repeat split.
Qed.

Lemma disposeVehicle_frame w vehicle : registryFrame w (disposeVehicle w vehicle).
Proof. repeat split. Qed.

Lemma remove_absent (_id : string) (w : World) :
  JsObject.get _id (factions w) = None ->
  remove _id w = (mkResult false (notFound _id), w).
Proof. intros H. unfold remove. now rewrite H. Qed.

Lemma remove_present (_id : string) (w : World) (faction : Factions.t) :
  JsObject.get _id (factions w) = Some faction ->
  status (fst (remove _id w)) = true /\
  registryFrame (setFactions (JsObject.delete _id (factions w)) w) (snd (remove _id w)).
Proof.
  intros H. unfold remove. rewrite H. cbn [fst snd status]. split; [reflexivity|].
  apply (@fold_left_preserves _ _ (registryFrame _)).
  - intros a b Ha. eapply registryFrame_trans; [exact Ha|apply disposeVehicle_frame].
  - apply (@fold_left_preserves _ _ (registryFrame _)).
    + intros a b Ha. eapply registryFrame_trans; [exact Ha|apply detachMember_frame].
    + apply registryFrame_refl.
Qed.

(** The stored faction documents are the same before and after [remove]. *)
Lemma remove_keeps_FactionsCollection (_id : string) (w : World) :
  FactionsCollection (database (snd (remove _id w))) = FactionsCollection (database w).
Proof.
  destruct (JsObject.get _id (factions w)) as [faction|] eqn:E.
  - destruct (remove_present _id w E) as [_ [_ [_ [_ H]]]]. exact H.
  - now rewrite (remove_absent _id w E).
Qed.

(** After a successful [remove], the identifier is no longer in the
    registry. *)
Lemma remove_evicts (_id : string) (w : World) :
  status (fst (remove _id w)) = true ->
  findFactionById _id (snd (remove _id w)) = None.
Proof.
  intros Hs. destruct (JsObject.get _id (factions w)) as [faction|] eqn:E.
  - destruct (remove_present _id w E) as [_ [H _]].
    unfold findFactionById. rewrite H. apply get_delete_same.
  - rewrite (remove_absent _id w E) in Hs. discriminate.
Qed.

(** A patch keyed by a character number reaches no character document. *)
Lemma updateCharacter_by_number (n : Z) (f : option (option string)) (b : option Z)
  (d : Database) :
  db.updateCharacter (mkCharacterPatch (IdNumber n) f b) d = d.
Proof.
  unfold db.updateCharacter. simpl. rewrite map_id. now destruct d.
Qed.

(** The branch of [remove] for a member who is not connected writes nothing:
    neither the cleared reference nor the owner's refund reaches storage. *)
Lemma detachMember_offline faction owner w member :
  byCharacter (Character._id member) w = None ->
  detachMember faction owner w member = w.
Proof.
  intros H. unfold detachMember, creditOffline. rewrite H.
  destruct owner as [o|]; auto.
  destruct (Character.id member =? o); auto.
  rewrite updateCharacter_by_number. now destruct w.
Qed.

(** C1 (code defect). [remove "f1"] succeeds and evicts the faction from the
    registry, and the faction's own document is still in the faction
    collection afterwards: the handler never deletes it, so the next [init]
    loads the faction again. *)
Theorem remove_leaves_faction_document :
  status (fst (remove "f1" offlineWorld)) = true /\
  findFactionById "f1" (snd (remove "f1" offlineWorld)) = None /\
  storedDocument "f1" (snd (remove "f1" offlineWorld)) =
    Some (mkDocument "f1" (db.encode redTeam)) /\
  findFactionById "f1" (init (snd (remove "f1" offlineWorld))) = Some redTeam.
Proof.
  repeat split.
Qed.

(** C2 (code defect). With the owner connected and the second member not,
    [remove "f1"] succeeds and [findFactionById] no longer finds the faction;
    the connected character's stored reference is cleared, the disconnected
    character's stored reference still names the removed faction. *)
Theorem remove_keeps_offline_reference :
  status (fst (remove "f1" onlineWorld)) = true /\
  findFactionById "f1" (snd (remove "f1" onlineWorld)) = None /\
  persistedFaction "c7" (snd (remove "f1" onlineWorld)) = Some (Some "") /\
  persistedFaction "c8" onlineWorld = Some (Some "f1") /\
  persistedFaction "c8" (snd (remove "f1" onlineWorld)) = Some (Some "f1").
Proof.
  repeat split.
Qed.

(** The connected owner of the example receives the bank of the faction. *)
Example remove_credits_online_owner :
  map Player.currency (players onlineWorld) = [50] /\
  map Player.currency (players (snd (remove "f1" onlineWorld))) = [1050].
Proof.
  split; reflexivity.
Qed.

(** C3 (code defect). The owner of "f1" is not connected and the faction
    holds 1000: [remove "f1"] succeeds and the owner's stored bank is 50
    before and 50 after, not 1050. *)
Theorem remove_offline_owner_not_credited :
  Factions.bank redTeam = 1000 /\
  status (fst (remove "f1" offlineWorld)) = true /\
  persistedBank "c7" offlineWorld = Some 50 /\
  persistedBank "c7" (snd (remove "f1" offlineWorld)) = Some 50.
Proof.
  repeat split.
Qed.

(** ** Create *)

Lemma setDatabase_same (w : World) : setDatabase (database w) w = w.
Proof. now destruct w. Qed.

Lemma truthy_nonempty (s : string) : s <> "" -> truthy (Some s) = true.
Proof.
  intros H. simpl. destruct (String.eqb_spec s ""); [contradiction|reflexivity].
Qed.

(** The five ways in which [create] refuses, in the order in which the
    handler tests them. *)
Lemma create_refusals (env : CreateEnv) (owner : Z) (core : FactionCore.t) (w : World) :
  (truthy (FactionCore.factionName core) = false ->
   create env owner core w = (Returns (mkResult false missingName), w)) /\
  (truthy (FactionCore.factionName core) = true ->
   db.getManyCharactersById owner (database w) = [] ->
   create env owner core w = (Returns (mkResult false (noCharacter owner)), w)) /\
  (forall character rest,
   truthy (FactionCore.factionName core) = true ->
   db.getManyCharactersById owner (database w) = character :: rest ->
   truthy (Character.faction character) = true ->
   create env owner core w = (Returns (mkResult false alreadyInFaction), w)) /\
  (forall character rest name existing others,
   FactionCore.factionName core = Some name -> name <> "" ->
   db.getManyCharactersById owner (database w) = character :: rest ->
   truthy (Character.faction character) = false ->
   DefaultRanks env <> [] ->
   db.getManyFactionsByName name (database w) = existing :: others ->
   create env owner core w = (Returns (mkResult false cannotInsert), w)) /\
  (forall character rest name,
   FactionCore.factionName core = Some name -> name <> "" ->
   db.getManyCharactersById owner (database w) = character :: rest ->
   truthy (Character.faction character) = false ->
   DefaultRanks env <> [] ->
   db.getManyFactionsByName name (database w) = [] ->
   document env = None ->
   create env owner core w = (Returns (mkResult false cannotInsert), w)).
Proof.
  unfold create. repeat split.
  - intros ->. reflexivity.
  - intros -> ->. reflexivity.
  - intros c rest -> -> ->. reflexivity.
  - intros c rest name existing others Hn Hne Hc Hf Hr He.
    rewrite Hn, (truthy_nonempty Hne), Hc, Hf. simpl.
    destruct (DefaultRanks env); [contradiction|]. simpl. now rewrite He.
  - intros c rest name Hn Hne Hc Hf Hr He Hd.
    rewrite Hn, (truthy_nonempty Hne), Hc, Hf. simpl.
    destruct (DefaultRanks env); [contradiction|]. simpl. rewrite He, Hd. simpl.
    now rewrite setDatabase_same.
Qed.

(** C4. A [create] that does not succeed (any of the five refusals, or the
    exception of an empty rank template) leaves the whole world as it was:
    the registry is unchanged, no faction document is written and no
    character's reference is modified. The persistence layer is taken not
    to hand out the empty string as an identifier. *)
Theorem create_failure_changes_nothing (env : CreateEnv) (owner : Z)
  (core : FactionCore.t) (w : World) :
  document env <> Some "" ->
  succeeded (fst (create env owner core w)) = false ->
  snd (create env owner core w) = w /\
  factions (snd (create env owner core w)) = factions w /\
  FactionsCollection (database (snd (create env owner core w))) =
    FactionsCollection (database w) /\
  CharactersCollection (database (snd (create env owner core w))) =
    CharactersCollection (database w).
Proof.
  intros Hid Hfail.
  assert (H : snd (create env owner core w) = w); [|rewrite H; auto].
  revert Hfail. unfold create.
  destruct (negb (truthy (FactionCore.factionName core))); [reflexivity|].
  destruct (db.getManyCharactersById owner (database w)) as [|c rest]; [reflexivity|].
  destruct (truthy (Character.faction c)); [reflexivity|].
  destruct (cloneRanks env 0 (DefaultRanks env)) as [|g ranks]; [reflexivity|].
  destruct (0 <? List.length _)%nat; [reflexivity|].
  destruct (document env) as [i|] eqn:E; simpl.
  - destruct (String.eqb_spec i ""); [subst i; contradiction|]. simpl. discriminate.
  - intros _. apply setDatabase_same.
Qed.

(** C4 (witness): character 7 already belongs to a faction. *)
Lemma create_failure_changes_nothing_witness :
  snd (create (exampleEnv (Some "f2")) 7 lostMC offlineWorld) = offlineWorld /\
  factions (snd (create (exampleEnv (Some "f2")) 7 lostMC offlineWorld)) =
    factions offlineWorld /\
  FactionsCollection (database (snd (create (exampleEnv (Some "f2")) 7 lostMC offlineWorld))) =
    FactionsCollection (database offlineWorld) /\
  CharactersCollection (database (snd (create (exampleEnv (Some "f2")) 7 lostMC offlineWorld))) =
    CharactersCollection (database offlineWorld).
Proof.
  apply (@create_failure_changes_nothing (exampleEnv (Some "f2")) 7 lostMC offlineWorld).
  - simpl. discriminate.
  - reflexivity.
Defined.

Lemma values_singleton (V : Type) (k : string) (v : V) : JsObject.values [(k, v)] = [v].
Proof.
  unfold JsObject.values, JsObject.entries, JsObject.named. simpl.
  destruct (JsObject.arrayIndex k); reflexivity.
Qed.

(** C8. When [create] succeeds with identifier [factionId], the record stored
    under [factionId] (and written to the faction collection) has the given
    name, the given bank or 0 when none was given, exactly one member (the
    founding character, with [isOwner] and [duty] true and the [gradeId] of
    the first generated grade), the generated grades, no locations and no
    vehicles. *)
Theorem create_builds_record (env : CreateEnv) (owner : Z) (core : FactionCore.t)
  (w : World) (factionId : string) :
  fst (create env owner core w) = Returns (mkResult true factionId) ->
  exists character first ranks name,
    hd_error (db.getManyCharactersById owner (database w)) = Some character /\
    cloneRanks env 0 (DefaultRanks env) = first :: ranks /\
    FactionCore.factionName core = Some name /\
    let founder := Member.mk owner (Character.name character) true
                             (Grades.gradeId first) true in
    let faction :=
      Factions.mk (Some factionId) name
        (match FactionCore.bank core with Some b => b | None => 0 end)
        [(Str.ofNumber owner, founder)] (first :: ranks) [] [] in
    findFactionById factionId (snd (create env owner core w)) = Some faction /\
    JsObject.values (Factions.members faction) = [founder] /\
    In (mkDocument factionId (db.encode faction))
       (FactionsCollection (database (snd (create env owner core w)))).
Proof.
  unfold create.
  destruct (FactionCore.factionName core) as [name|] eqn:En; [|discriminate].
  destruct (negb (truthy (Some name))); [discriminate|].
  destruct (db.getManyCharactersById owner (database w)) as [|c rest]; [discriminate|].
  destruct (truthy (Character.faction c)); [discriminate|].
  destruct (cloneRanks env 0 (DefaultRanks env)) as [|g ranks]; [discriminate|].
  destruct (0 <? List.length _)%nat; [discriminate|].
  destruct (document env) as [i|]; simpl; [|discriminate].
  destruct (negb (negb (i =? "")%string)); simpl; [discriminate|].
  intros H. injection H as <-.
  exists c, g, ranks, name. repeat split.
  - unfold findFactionById. simpl. apply get_set_same.
  - apply values_singleton.
  - simpl. apply in_or_app. right. left. reflexivity.
Qed.

(** C8 (witness): "Lost MC" is created for character 9 without a bank. *)
Lemma create_builds_record_witness :
  exists character first ranks name,
    hd_error (db.getManyCharactersById 9 (database offlineWorld)) = Some character /\
    cloneRanks (exampleEnv (Some "f2")) 0 (DefaultRanks (exampleEnv (Some "f2"))) =
      first :: ranks /\
    FactionCore.factionName lostMC = Some name /\
    let founder := Member.mk 9 (Character.name character) true
                             (Grades.gradeId first) true in
    let faction :=
      Factions.mk (Some "f2") name
        (match FactionCore.bank lostMC with Some b => b | None => 0 end)
        [(Str.ofNumber 9, founder)] (first :: ranks) [] [] in
    findFactionById "f2" (snd (create (exampleEnv (Some "f2")) 9 lostMC offlineWorld)) =
      Some faction /\
    JsObject.values (Factions.members faction) = [founder] /\
    In (mkDocument "f2" (db.encode faction))
       (FactionsCollection
          (database (snd (create (exampleEnv (Some "f2")) 9 lostMC offlineWorld)))).
Proof.
  apply (@create_builds_record (exampleEnv (Some "f2")) 9 lostMC offlineWorld "f2").
  reflexivity.
Defined.

(** ** The registry invariant *)

Lemma invariant_upsert (faction : Factions.t) (k : string) (w : World) :
  RegistryInvariant w ->
  Factions._id faction = Some k ->
  In k (db.getAll (database w)) ->
  RegistryInvariant (InternalFunctions.update faction w).
Proof.
  intros [Hn [Hk Hp]] Hid Hin.
  unfold InternalFunctions.update, InternalFunctions.key. rewrite Hid.
  repeat split; simpl.
  - now apply NoDup_keys_set.
  - intros k' f' H. apply in_set in H. destruct H as [H|H].
    + injection H as -> ->. exact Hid.
    + now apply Hk.
  - intros k' H. apply keys_set in H. destruct H as [->|H]; auto.
Qed.

Lemma invariant_frame (w w' : World) :
  RegistryInvariant w ->
  factions w' = factions w ->
  (forall k, In k (db.getAll (database w)) -> In k (db.getAll (database w'))) ->
  RegistryInvariant w'.
Proof.
  intros [Hn [Hk Hp]] Hf Hd. unfold RegistryInvariant. rewrite Hf.
  repeat split; auto.
Qed.

Lemma invariant_delete (k : string) (w : World) :
  RegistryInvariant w ->
  RegistryInvariant (setFactions (JsObject.delete k (factions w)) w).
Proof.
  intros [Hn [Hk Hp]]. repeat split; simpl.
  - now apply NoDup_keys_delete.
  - intros k' f' H. apply in_delete in H. now apply Hk.
  - intros k' H. apply Hp. unfold JsObject.keys in *.
    apply in_map_iff in H. destruct H as [e [He H]].
    apply in_delete in H. apply in_map_iff. exists e. tauto.
Qed.

Lemma decodeAll_In (f : Factions.t) (l : list Document) :
  In f (db.decodeAll l) -> exists d, In d l /\ db.decode d = Some f.
Proof.
  induction l as [|d l IH]; simpl; [tauto|].
  destruct (db.decode d) as [g|] eqn:E.
  - intros [<-|H].
    + exists d. auto.
    + destruct (IH H) as [d' [Hd He]]. exists d'. auto.
  - intros H. destruct (IH H) as [d' [Hd He]]. exists d'. auto.
Qed.

Lemma decode_id (d : Document) (f : Factions.t) :
  db.decode d = Some f -> Factions._id f = Some (doc_id d).
Proof.
  unfold db.decode.
  repeat match goal with
         | |- context [match ?x with _ => _ end] => destruct x; try discriminate
         end.
  intros H. injection H as <-. reflexivity.
Qed.

(** What [db.getMany({ _id })] returns carries that [_id] and is stored. *)
Lemma getManyFactionsById_sound (i : string) (d : Database) (f : Factions.t) :
  In f (db.getManyFactionsById i d) ->
  Factions._id f = Some i /\ In i (db.getAll d).
Proof.
  intros H. apply decodeAll_In in H. destruct H as [x [Hx Hd]].
  apply filter_In in Hx. destruct Hx as [Hx He].
  apply String.eqb_eq in He. subst i. split.
  - now apply decode_id.
  - unfold db.getAll. now apply in_map.
Qed.

Lemma initStep_invariant (w0 : World) (w : World) (i : string) :
  RegistryInvariant w /\ database w = database w0 ->
  RegistryInvariant (initStep w i) /\ database (initStep w i) = database w0.
Proof.
  intros [Hinv Hdb]. unfold initStep.
  destruct (db.getManyFactionsById i (database w)) as [|f rest] eqn:E; [auto|].
  destruct (@getManyFactionsById_sound i (database w) f) as [Hid Hin].
  { rewrite E. now left. }
  split; [|exact Hdb]. eapply invariant_upsert; eauto.
Qed.

Lemma init_invariant (w : World) : RegistryInvariant w -> RegistryInvariant (init w).
Proof.
  intros H. unfold init.
  destruct (List.length (db.getAll (database w)) =? 0)%nat; [exact H|].
  apply (@fold_left_preserves _ _
           (fun a => RegistryInvariant a /\ database a = database w)).
  - intros a b. apply initStep_invariant.
  - auto.
Qed.

Lemma create_invariant (env : CreateEnv) (owner : Z) (core : FactionCore.t) (w : World) :
  RegistryInvariant w -> RegistryInvariant (snd (create env owner core w)).
Proof.
  intros H. unfold create.
  destruct (negb (truthy (FactionCore.factionName core))); [exact H|].
  destruct (db.getManyCharactersById owner (database w)) as [|c rest]; [exact H|].
  destruct (truthy (Character.faction c)); [exact H|].
  destruct (cloneRanks env 0 (DefaultRanks env)) as [|g ranks]; [exact H|].
  destruct (0 <? List.length _)%nat; [exact H|].
  destruct (document env) as [i|]; simpl.
  - assert (Hw : RegistryInvariant
                   (setDatabase
                      (mkDatabase
                         (FactionsCollection (database w) ++ [mkDocument i (db.encode
                            (Factions.mk None
                               match FactionCore.factionName core with
                               | Some n => n
                               | None => ""
                               end
                               match FactionCore.bank core with
                               | Some b => b
                               | None => 0
                               end
                               [(Str.ofNumber owner,
                                 Member.mk owner (Character.name c) true
                                           (Grades.gradeId g) true)]
                               (g :: ranks) [] []))])
                         (CharactersCollection (database w))
                         (VehiclesCollection (database w))) w)).
    { eapply invariant_frame; [exact H|reflexivity|].
      intros k Hk. unfold db.getAll in *. simpl. rewrite map_app.
      apply in_or_app. now left. }
    destruct (negb (negb (i =? "")%string)); simpl; [exact Hw|].
    eapply invariant_frame; [|reflexivity|intros k Hk; exact Hk].
    eapply invariant_upsert; [exact Hw|reflexivity|].
    unfold db.getAll. simpl. rewrite map_app. apply in_or_app. right. now left.
  - now rewrite setDatabase_same.
Qed.

Lemma remove_invariant (_id : string) (w : World) :
  RegistryInvariant w -> RegistryInvariant (snd (remove _id w)).
Proof.
  intros H. destruct (JsObject.get _id (factions w)) as [faction|] eqn:E.
  - destruct (remove_present _id w E) as [_ [Hf [_ [_ Hd]]]].
    eapply invariant_frame; [apply (invariant_delete _id H)|exact Hf|].
    unfold db.getAll. rewrite Hd. auto.
  - now rewrite (remove_absent _id w E).
Qed.

(** C9. [init], [create] and [remove] each preserve the registry invariant:
    the keys of the store are pairwise distinct, each key is the [_id] of the
    record stored under it, and each is the identifier of a document of the
    faction collection, that is, an identifier the persistence layer
    assigned. *)
Theorem registry_invariant_preserved (w : World) :
  RegistryInvariant w ->
  RegistryInvariant (init w) /\
  (forall env owner core, RegistryInvariant (snd (create env owner core w))) /\
  (forall _id, RegistryInvariant (snd (remove _id w))).
Proof.
  intros H. split; [|split].
  - apply (init_invariant H).
  - intros env owner core. apply (create_invariant env owner core H).
  - intros _id. apply (remove_invariant _id H).
Qed.

(** The registry is empty when the module is loaded, and the empty registry
    satisfies the invariant. *)
Lemma empty_registry_invariant (w : World) :
  factions w = [] -> RegistryInvariant w.
Proof.
  intros H. unfold RegistryInvariant, keyedById. rewrite H. simpl.
  repeat split; try constructor; intros; contradiction.
Qed.

Lemma offlineWorld_invariant : RegistryInvariant offlineWorld.
Proof.
  unfold RegistryInvariant, keyedById. simpl. repeat split.
  - constructor; [intros []|constructor].
  - intros k f [H|[]]. now injection H as <- <-.
  - intros k [<-|[]]. now left.
Defined.

(** C9 (witness): the example world. *)
Lemma registry_invariant_preserved_witness :
  RegistryInvariant (init offlineWorld) /\
  (forall env owner core, RegistryInvariant (snd (create env owner core offlineWorld))) /\
  (forall _id, RegistryInvariant (snd (remove _id offlineWorld))).
Proof.
  apply (@registry_invariant_preserved offlineWorld). exact offlineWorld_invariant.
Defined.

(** ** Update *)

Lemma forEach_done (cbs : list FactionChangeCallback) (_id fieldName : string)
  (calls : list Notification) :
  forEach cbs _id fieldName = (calls, true) -> calls = notifyAll cbs _id fieldName.
Proof.
  revert calls. induction cbs as [|cb r IH]; simpl; intros calls H.
  - now injection H as <-.
  - destruct (throws cb _id fieldName); [discriminate|].
    destruct (forEach r _id fieldName) as [l done].
    injection H as <- ->. now rewrite (IH l eq_refl).
Qed.

Lemma forEach_quiet (cbs : list FactionChangeCallback) (_id fieldName : string) :
  (forall cb, In cb cbs -> throws cb _id fieldName = false) ->
  forEach cbs _id fieldName = (notifyAll cbs _id fieldName, true).
Proof.
  induction cbs as [|cb r IH]; simpl; intros H; [reflexivity|].
  rewrite (H cb (or_introl eq_refl)), IH; auto.
Qed.

Lemma patchOf_field (_id fieldName : string) (partialObject : JsObject.t Value) :
  fieldName <> "_id" ->
  patchOf _id fieldName partialObject =
    [("_id", VStr _id); (fieldName, field fieldName partialObject)].
Proof.
  intros H. unfold patchOf. simpl.
  destruct (String.eqb_spec fieldName "_id"); [contradiction|reflexivity].
Qed.

Lemma patchOf_id (_id : string) (partialObject : JsObject.t Value) :
  patchOf _id "_id" partialObject = [("_id", field "_id" partialObject)].
Proof. reflexivity. Qed.

Lemma find_map_update (i : string) (p : Document -> bool) (g : Document -> Document)
  (l : list Document) :
  (forall x, doc_id (g x) = doc_id x) ->
  find (fun d => String.eqb (doc_id d) i)
       (map (fun x => if p x then g x else x) l) =
  option_map (fun x => if p x then g x else x)
             (find (fun d => String.eqb (doc_id d) i) l).
Proof.
  intros Hg. induction l as [|x l IH]; simpl; [reflexivity|].
  assert (E : doc_id (if p x then g x else x) = doc_id x).
  { destruct (p x); auto. }
  rewrite E. destruct (String.eqb (doc_id x) i); auto.
Qed.

(** What [update] stores when the field is not the identifier: the document
    of the faction takes the one field, every other document stays. *)
Lemma updateFaction_stored (_id fieldName i : string) (partialObject : JsObject.t Value)
  (w : World) :
  fieldName <> "_id" ->
  storedDocument i
    (setDatabase (db.updateFaction (patchOf _id fieldName partialObject) (database w)) w) =
  option_map
    (fun d => if String.eqb _id (doc_id d)
              then mkDocument (doc_id d)
                     (JsObject.set fieldName (field fieldName partialObject) (fields d))
              else d)
    (storedDocument i w).
Proof.
  intros H. unfold storedDocument. simpl. rewrite (patchOf_field _ _ H).
  rewrite find_map_update by reflexivity.
  destruct (find _ (FactionsCollection (database w))) as [d|]; simpl; [|reflexivity].
  f_equal. unfold db.selects, db.applyPatch.
  cbn [JsObject.get JsObject.delete]. rewrite String.eqb_refl.
  destruct (String.eqb _id (doc_id d)); [|reflexivity].
  destruct (String.eqb_spec "_id" fieldName) as [E|_]; [now subst fieldName|].
  reflexivity.
Qed.

Lemma updateFaction_identifier (_id : string) (partialObject : JsObject.t Value)
  (d : Database) :
  db.updateFaction (patchOf _id "_id" partialObject) d = d.
Proof.
  rewrite patchOf_id. unfold db.updateFaction.
  replace (map _ (FactionsCollection d)) with (FactionsCollection d);
    [now destruct d|].
  induction (FactionsCollection d) as [|x l IH]; simpl; [reflexivity|].
  rewrite <- IH. f_equal.
  destruct (db.selects _ x); [|reflexivity]. now destruct x.
Qed.

(** The three ways [update] can go. *)
Lemma update_cases (dbThrows : bool) (_id fieldName : string)
  (partialObject : JsObject.t Value) (w : World) :
  (JsObject.get _id (factions w) = None /\
   update dbThrows _id fieldName partialObject w = (mkResult false (notFound _id), w)) \/
  (dbThrows = true /\
   update dbThrows _id fieldName partialObject w = (mkResult false updateFailed, w)) \/
  (dbThrows = false /\
   exists calls done,
     forEach (callbacks w) _id fieldName = (calls, done) /\
     status (fst (update dbThrows _id fieldName partialObject w)) = done /\
     snd (update dbThrows _id fieldName partialObject w) =
       setDelivered (delivered w ++ calls)
         (setDatabase
            (db.updateFaction (patchOf _id fieldName partialObject) (database w)) w)).
Proof.
  unfold update. destruct (JsObject.get _id (factions w)) as [faction|]; [|now left].
  right. destruct dbThrows; [now left|right]. split; [reflexivity|].
  cbn [callbacks setDatabase].
  destruct (forEach (callbacks w) _id fieldName) as [calls done].
  exists calls, done. destruct done; repeat split.
Qed.

Lemma storedDocument_id (i : string) (w : World) (d : Document) :
  storedDocument i w = Some d -> doc_id d = i.
Proof.
  intros H. apply find_some in H. now apply String.eqb_eq.
Qed.

Lemma storedDocument_setDelivered (i : string) (n : list Notification) (w : World) :
  storedDocument i (setDelivered n w) = storedDocument i w.
Proof. reflexivity. Qed.

(** [update] touches no faction document other than the one it names. *)
Lemma update_other_documents (dbThrows : bool) (_id fieldName i : string)
  (partialObject : JsObject.t Value) (w : World) :
  i <> _id ->
  storedDocument i (snd (update dbThrows _id fieldName partialObject w)) =
  storedDocument i w.
Proof.
  intros Hi.
  destruct (update_cases dbThrows _id fieldName partialObject w)
    as [[_ H]|[[_ H]|[_ [calls [done [_ [_ H]]]]]]]; rewrite H; try reflexivity.
  cbn [snd]. rewrite storedDocument_setDelivered.
  destruct (String.eqb_spec fieldName "_id") as [->|Hf].
  - rewrite updateFaction_identifier. now rewrite setDatabase_same.
  - rewrite (updateFaction_stored _id i partialObject w Hf).
    destruct (storedDocument i w) as [d|] eqn:E; [|reflexivity]. simpl.
    apply storedDocument_id in E.
    destruct (String.eqb_spec _id (doc_id d)); [congruence|reflexivity].
Qed.

(** What a successful [update] of a field other than [_id] has done. *)
Lemma update_success_effect (dbThrows : bool) (_id fieldName : string)
  (partialObject : JsObject.t Value) (w : World) :
  fieldName <> "_id" ->
  status (fst (update dbThrows _id fieldName partialObject w)) = true ->
  (forall d, storedDocument _id w = Some d ->
     storedDocument _id (snd (update dbThrows _id fieldName partialObject w)) =
       Some (mkDocument _id
               (JsObject.set fieldName (field fieldName partialObject) (fields d))) /\
     storedField _id fieldName (snd (update dbThrows _id fieldName partialObject w)) =
       Some (field fieldName partialObject)) /\
  (forall i, i <> _id ->
     storedDocument i (snd (update dbThrows _id fieldName partialObject w)) =
     storedDocument i w) /\
  delivered (snd (update dbThrows _id fieldName partialObject w)) =
    (delivered w ++ notifyAll (callbacks w) _id fieldName)%list.
Proof.
  intros Hf Hs. split; [|split].
  - destruct (update_cases dbThrows _id fieldName partialObject w)
      as [[_ H]|[[_ H]|[_ [calls [done [_ [_ H]]]]]]];
      try (rewrite H in Hs; discriminate).
    intros d Hd.
    assert (K : storedDocument _id (snd (update dbThrows _id fieldName partialObject w)) =
                Some (mkDocument _id
                        (JsObject.set fieldName (field fieldName partialObject) (fields d)))).
    { rewrite H, storedDocument_setDelivered, (updateFaction_stored _id _id partialObject w Hf).
      rewrite Hd. simpl. apply storedDocument_id in Hd. rewrite Hd.
      now rewrite String.eqb_refl. }
    split; [exact K|]. unfold storedField. rewrite K. simpl. apply get_set_same.
  - intros i Hi. now apply update_other_documents.
  - destruct (update_cases dbThrows _id fieldName partialObject w)
      as [[_ H]|[[_ H]|[_ [calls [done [Hc [Hd H]]]]]]];
      try (rewrite H in Hs; discriminate).
    rewrite Hs in Hd. subst done. rewrite H. simpl.
    now rewrite (forEach_done _ _ _ Hc).
Qed.

(** C5 (as amended). For every faction identifier whose document is in the
    faction collection and every field name other than [_id], an [update]
    that returns success has written exactly the named field, with the value
    the partial record holds for it, into the stored document of that
    faction, has left every other stored faction document alone, and has
    called every registered subscriber once, in registration order, with the
    identifier and the field name. *)
Theorem update_persists_field_and_notifies (dbThrows : bool) (_id fieldName : string)
  (partialObject : JsObject.t Value) (w : World) (d : Document) :
  fieldName <> "_id" ->
  storedDocument _id w = Some d ->
  status (fst (update dbThrows _id fieldName partialObject w)) = true ->
  storedDocument _id (snd (update dbThrows _id fieldName partialObject w)) =
    Some (mkDocument _id
            (JsObject.set fieldName (field fieldName partialObject) (fields d))) /\
  storedField _id fieldName (snd (update dbThrows _id fieldName partialObject w)) =
    Some (field fieldName partialObject) /\
  (forall i, i <> _id ->
     storedDocument i (snd (update dbThrows _id fieldName partialObject w)) =
     storedDocument i w) /\
  delivered (snd (update dbThrows _id fieldName partialObject w)) =
    (delivered w ++ notifyAll (callbacks w) _id fieldName)%list.
Proof.
  intros Hf Hd Hs.
  destruct (update_success_effect dbThrows _id partialObject w Hf Hs) as [H1 [H2 H3]].
  destruct (H1 d Hd) as [K1 K2]. repeat split; assumption.
Qed.

(** C5 (witness): [update("f1", "bank", { bank: 500 })]. *)
Lemma update_persists_field_and_notifies_witness :
  storedDocument "f1" (snd (update false "f1" "bank" [("bank", VNum 500)] offlineWorld)) =
    Some (mkDocument "f1"
            (JsObject.set "bank" (field "bank" [("bank", VNum 500)])
                          (fields (mkDocument "f1" (db.encode redTeam))))) /\
  storedField "f1" "bank"
    (snd (update false "f1" "bank" [("bank", VNum 500)] offlineWorld)) =
    Some (field "bank" [("bank", VNum 500)]) /\
  (forall i, i <> "f1" ->
     storedDocument i (snd (update false "f1" "bank" [("bank", VNum 500)] offlineWorld)) =
     storedDocument i offlineWorld) /\
  delivered (snd (update false "f1" "bank" [("bank", VNum 500)] offlineWorld)) =
    (delivered offlineWorld ++ notifyAll (callbacks offlineWorld) "f1" "bank")%list.
Proof.
  apply (@update_persists_field_and_notifies false "f1" "bank" [("bank", VNum 500)]
           offlineWorld (mkDocument "f1" (db.encode redTeam))).
  - discriminate.
  - reflexivity.
  - reflexivity.
Defined.

(** C5 (counterexample). Two ways in which a successful [update] persists
    nothing for the faction. With the field name [_id] the computed key
    replaces the identifier of the patch: [update("f1", "_id", { _id: "f2" })]
    returns success and calls the subscribers, and nothing is stored for
    "f1". And the handler does not look at what [db.update] answers: when the
    collection holds no document for "f1", [update("f1", "bank", { bank: 500 })]
    returns success and calls the subscribers all the same. *)
Lemma update_identifier_field_not_persisted :
  (status (fst (update false "f1" "_id" [("_id", VStr "f2")] offlineWorld)) = true /\
   database (snd (update false "f1" "_id" [("_id", VStr "f2")] offlineWorld)) =
     database offlineWorld /\
   storedField "f1" "_id" (snd (update false "f1" "_id" [("_id", VStr "f2")] offlineWorld))
     <> Some (VStr "f2") /\
   storedDocument "f2" (snd (update false "f1" "_id" [("_id", VStr "f2")] offlineWorld)) =
     None) /\
  (findFactionById "f1" orphanWorld = Some redTeam /\
   status (fst (update false "f1" "bank" [("bank", VNum 500)] orphanWorld)) = true /\
   delivered (snd (update false "f1" "bank" [("bank", VNum 500)] orphanWorld)) =
     [(1%nat, "f1", "bank"); (2%nat, "f1", "bank")] /\
   database (snd (update false "f1" "bank" [("bank", VNum 500)] orphanWorld)) =
     database orphanWorld /\
   storedField "f1" "bank" (snd (update false "f1" "bank" [("bank", VNum 500)] orphanWorld)) =
     None).
Proof.
  repeat split. discriminate.
Qed.

(** C6. [update] never changes the registry: on every path the store, and so
    what [findFactionById] and [getAllFactions] return, is what it was. When
    [db.update] throws the whole world is unchanged; otherwise only the stored
    document of the named faction and the record of delivered notifications
    can differ. *)
Theorem update_leaves_registry (dbThrows : bool) (_id fieldName : string)
  (partialObject : JsObject.t Value) (w : World) :
  factions (snd (update dbThrows _id fieldName partialObject w)) = factions w /\
  findFactionById _id (snd (update dbThrows _id fieldName partialObject w)) =
    findFactionById _id w /\
  getAllFactions (snd (update dbThrows _id fieldName partialObject w)) = getAllFactions w /\
  snd (update true _id fieldName partialObject w) = w /\
  callbacks (snd (update dbThrows _id fieldName partialObject w)) = callbacks w /\
  players (snd (update dbThrows _id fieldName partialObject w)) = players w /\
  altVehicles (snd (update dbThrows _id fieldName partialObject w)) = altVehicles w /\
  CharactersCollection (database (snd (update dbThrows _id fieldName partialObject w))) =
    CharactersCollection (database w) /\
  VehiclesCollection (database (snd (update dbThrows _id fieldName partialObject w))) =
    VehiclesCollection (database w) /\
  map doc_id (FactionsCollection
                (database (snd (update dbThrows _id fieldName partialObject w)))) =
    map doc_id (FactionsCollection (database w)) /\
  (forall i, i <> _id ->
     storedDocument i (snd (update dbThrows _id fieldName partialObject w)) =
     storedDocument i w).
Proof.
  assert (Hf : factions (snd (update dbThrows _id fieldName partialObject w)) = factions w).
  { destruct (update_cases dbThrows _id fieldName partialObject w)
      as [[_ H]|[[_ H]|[_ [calls [done [_ [_ H]]]]]]]; now rewrite H. }
  assert (Ht : snd (update true _id fieldName partialObject w) = w).
  { destruct (update_cases true _id fieldName partialObject w)
      as [[_ H]|[[_ H]|[H _]]]; [now rewrite H|now rewrite H|discriminate]. }
  unfold findFactionById, getAllFactions. rewrite Hf.
  do 4 (split; [auto|]).
  assert (Hrest :
    callbacks (snd (update dbThrows _id fieldName partialObject w)) = callbacks w /\
    players (snd (update dbThrows _id fieldName partialObject w)) = players w /\
    altVehicles (snd (update dbThrows _id fieldName partialObject w)) = altVehicles w /\
    CharactersCollection (database (snd (update dbThrows _id fieldName partialObject w))) =
      CharactersCollection (database w) /\
    VehiclesCollection (database (snd (update dbThrows _id fieldName partialObject w))) =
      VehiclesCollection (database w) /\
    map doc_id (FactionsCollection
                  (database (snd (update dbThrows _id fieldName partialObject w)))) =
      map doc_id (FactionsCollection (database w))).
  { destruct (update_cases dbThrows _id fieldName partialObject w)
      as [[_ H]|[[_ H]|[_ [calls [done [_ [_ H]]]]]]]; rewrite H; repeat split.
    simpl. rewrite map_map. apply map_ext. intros x.
    destruct (db.selects _ x); reflexivity. }
  destruct Hrest as [H1 [H2 [H3 [H4 [H5 H6]]]]].
  repeat (split; [assumption|]).
  intros i Hi. now apply update_other_documents.
Qed.

(** The staleness C6 describes, on the example: after the bank is updated to
    500 in storage the registry still answers 1000. *)
Example update_stale_registry :
  storedField "f1" "bank"
    (snd (update false "f1" "bank" [("bank", VNum 500)] offlineWorld)) = Some (VNum 500) /\
  option_map Factions.bank
    (findFactionById "f1" (snd (update false "f1" "bank" [("bank", VNum 500)] offlineWorld))) =
    Some 1000.
Proof.
  split; reflexivity.
Qed.

(** C10 (as amended). For every faction identifier in the registry and every
    field name, [update] does not check that the partial record holds the
    named field: when the field is absent, and provided the write succeeds
    and no subscriber throws, [update] stores the field with the value
    undefined, calls every registered subscriber in order, and returns
    success. *)
Theorem update_absent_field (dbThrows : bool) (_id fieldName : string)
  (partialObject : JsObject.t Value) (w : World) (faction : Factions.t) :
  findFactionById _id w = Some faction ->
  JsObject.get fieldName partialObject = None ->
  persistenceSucceeds dbThrows (patchOf _id fieldName partialObject) w ->
  (forall cb, In cb (callbacks w) -> throws cb _id fieldName = false) ->
  fst (update dbThrows _id fieldName partialObject w) = mkResult true updated /\
  storedField _id fieldName (snd (update dbThrows _id fieldName partialObject w)) =
    Some VUndefined /\
  delivered (snd (update dbThrows _id fieldName partialObject w)) =
    (delivered w ++ notifyAll (callbacks w) _id fieldName)%list.
Proof.
  intros Hreg Habs [Hdb [d [Hin Hsel]]] Hquiet. subst dbThrows.
  assert (Hv : field fieldName partialObject = VUndefined).
  { unfold field. now rewrite Habs. }
  assert (Hne : fieldName <> "_id").
  { intros ->. rewrite patchOf_id, Hv in Hsel. discriminate. }
  assert (Hr : update false _id fieldName partialObject w =
               (mkResult true updated,
                setDelivered (delivered w ++ notifyAll (callbacks w) _id fieldName)
                  (setDatabase
                     (db.updateFaction (patchOf _id fieldName partialObject) (database w))
                     w))).
  { unfold update. unfold findFactionById in Hreg. rewrite Hreg.
    cbn [callbacks setDatabase]. now rewrite (forEach_quiet _ _ _ Hquiet). }
  assert (Hst : status (fst (update false _id fieldName partialObject w)) = true).
  { now rewrite Hr. }
  destruct (update_success_effect false _id partialObject w Hne Hst)
    as [Hp [_ Hd]].
  split; [now rewrite Hr|]. split; [|exact Hd].
  rewrite (patchOf_field _ _ Hne) in Hsel. unfold db.selects in Hsel.
  cbn [JsObject.get] in Hsel. rewrite String.eqb_refl in Hsel.
  destruct (storedDocument _id w) as [d'|] eqn:E.
  - rewrite <- Hv. exact (proj2 (Hp d' eq_refl)).
  - apply String.eqb_eq in Hsel. unfold storedDocument in E.
    pose proof (find_none _ _ E d Hin) as K. cbn beta in K.
    rewrite <- Hsel, String.eqb_refl in K. discriminate.
Qed.

(** C10 (witness): [update("f1", "bank", {})]. *)
Lemma update_absent_field_witness :
  fst (update false "f1" "bank" [] offlineWorld) = mkResult true updated /\
  storedField "f1" "bank" (snd (update false "f1" "bank" [] offlineWorld)) =
    Some VUndefined /\
  delivered (snd (update false "f1" "bank" [] offlineWorld)) =
    (delivered offlineWorld ++ notifyAll (callbacks offlineWorld) "f1" "bank")%list.
Proof.
  apply (@update_absent_field false "f1" "bank" [] offlineWorld redTeam).
  - reflexivity.
  - reflexivity.
  - split; [reflexivity|].
    exists (mkDocument "f1" (db.encode redTeam)). split; [now left|reflexivity].
  - intros cb [<-|[<-|[]]]; reflexivity.
Defined.

(** C10 (counterexample). The first subscriber throws: the write of
    [update("f1", "bank", {})] succeeds and stores undefined, the second
    subscriber is never called, and the handler returns failure. *)
Lemma update_absent_field_faulty_subscriber :
  findFactionById "f1" faultyWorld = Some redTeam /\
  persistenceSucceeds false (patchOf "f1" "bank" []) faultyWorld /\
  storedField "f1" "bank" (snd (update false "f1" "bank" [] faultyWorld)) =
    Some VUndefined /\
  map subscriber (callbacks faultyWorld) = [1%nat; 2%nat] /\
  delivered (snd (update false "f1" "bank" [] faultyWorld)) = [(1%nat, "f1", "bank")] /\
  fst (update false "f1" "bank" [] faultyWorld) = mkResult false updateFailed.
Proof.
  repeat split.
  exists (mkDocument "f1" (db.encode redTeam)). split; [now left|reflexivity].
Qed.

(** * Further properties of the handlers *)

(** ** More on dictionaries *)

Section DictionaryMore.
Variable V : Type.
Implicit Types (o : JsObject.t V) (k : string) (v : V).

Lemma get_delete_other k k' o :
  k <> k' -> JsObject.get k' (JsObject.delete k o) = JsObject.get k' o.
Proof.
  intros Hne. induction o as [|[k1 v1] r IH]; simpl; auto.
  destruct (String.eqb_spec k k1); simpl.
  - subst k1. destruct (String.eqb_spec k' k); congruence.
  - now rewrite IH.
Qed.

Lemma set_absent k v o :
  JsObject.get k o = None -> JsObject.set k v o = (o ++ [(k, v)])%list.
Proof.
  induction o as [|[k1 v1] r IH]; simpl; auto.
  destruct (String.eqb k k1); [discriminate|].
  intros H. now rewrite IH.
Qed.

Lemma set_same_value k v o :
  JsObject.get k o = Some v -> JsObject.set k v o = o.
Proof.
  induction o as [|[k1 v1] r IH]; simpl; [discriminate|].
  destruct (String.eqb k k1).
  - intros H. now injection H as ->.
  - intros H. now rewrite IH.
Qed.

Lemma values_perm o : Permutation (JsObject.values o) (map snd o).
Proof.
  unfold JsObject.values. apply Permutation_map, entries_perm.
Qed.

Lemma get_None_keys k o : JsObject.get k o = None -> ~ In k (JsObject.keys o).
Proof.
  unfold JsObject.keys. induction o as [|[k1 v1] r IH]; simpl; auto.
  destruct (String.eqb_spec k k1); [discriminate|].
  intros H [E|Hin]; [congruence|]. now apply IH.
Qed.

End DictionaryMore.

(** ** Create, continued *)

Lemma filter_map_commute (A : Type) (p : A -> bool) (g : A -> A) (l : list A) :
  (forall x, p (g x) = p x) -> filter p (map g l) = map g (filter p l).
Proof.
  intros H. induction l as [|x l IH]; simpl; auto.
  rewrite H. destruct (p x); simpl; now rewrite IH.
Qed.

(** The world a successful [create] leaves, field by field. *)
Lemma create_success (env : CreateEnv) (owner : Z) (core : FactionCore.t) (w : World)
  (factionId : string) :
  fst (create env owner core w) = Returns (mkResult true factionId) ->
  exists name character rest first ranks,
    FactionCore.factionName core = Some name /\
    db.getManyCharactersById owner (database w) = character :: rest /\
    truthy (Character.faction character) = false /\
    cloneRanks env 0 (DefaultRanks env) = first :: ranks /\
    db.getManyFactionsByName name (database w) = [] /\
    document env = Some factionId /\
    factionId <> "" /\
    let faction :=
      Factions.mk (Some factionId) name
        (match FactionCore.bank core with Some b => b | None => 0 end)
        [(Str.ofNumber owner,
          Member.mk owner (Character.name character) true (Grades.gradeId first) true)]
        (first :: ranks) [] [] in
    snd (create env owner core w) =
      mkWorld (JsObject.set factionId faction (factions w)) (callbacks w)
        (mkDatabase
           (FactionsCollection (database w) ++ [mkDocument factionId (db.encode faction)])
           (map (fun x => if String.eqb (Character._id character) (Character._id x)
                          then Character.with_faction (Some factionId) x else x)
                (CharactersCollection (database w)))
           (VehiclesCollection (database w)))
        (players w) (altVehicles w) (delivered w).
Proof.
  unfold create.
  destruct (FactionCore.factionName core) as [name|] eqn:En; [|discriminate].
  destruct (negb (truthy (Some name))); [discriminate|].
  destruct (db.getManyCharactersById owner (database w)) as [|c rest]; [discriminate|].
  destruct (truthy (Character.faction c)) eqn:Ec; [discriminate|].
  destruct (cloneRanks env 0 (DefaultRanks env)) as [|g ranks]; [discriminate|].
  destruct (db.getManyFactionsByName name (database w)) as [|e es] eqn:Ee;
    [|discriminate].
  cbn [List.length Nat.ltb Nat.leb].
  destruct (document env) as [i|]; simpl; [|discriminate].
  destruct (String.eqb_spec i ""); simpl; [discriminate|].
  intros H. injection H as <-.
  exists name, c, rest, g, ranks. repeat split; auto.
Qed.

Lemma find_character_map (i : string) (p : Character.t -> bool)
  (g : Character.t -> Character.t) (l : list Character.t) :
  (forall x, Character._id (g x) = Character._id x) ->
  find (fun c => String.eqb (Character._id c) i)
       (map (fun x => if p x then g x else x) l) =
  option_map (fun x => if p x then g x else x)
             (find (fun c => String.eqb (Character._id c) i) l).
Proof.
  intros Hg. induction l as [|x l IH]; simpl; [reflexivity|].
  assert (E : Character._id (if p x then g x else x) = Character._id x).
  { destruct (p x); auto. }
  rewrite E. destruct (String.eqb (Character._id x) i); auto.
Qed.

(** X1. When [create] succeeds with identifier [factionId], [findFactionById]
    finds under [factionId] a record with the requested name and that [_id],
    the record is listed by [getAllFactions], and the lookup of every other
    identifier answers what it answered before. *)
Theorem create_then_lookup (env : CreateEnv) (owner : Z) (core : FactionCore.t)
  (w : World) (factionId : string) :
  fst (create env owner core w) = Returns (mkResult true factionId) ->
  (exists faction,
     findFactionById factionId (snd (create env owner core w)) = Some faction /\
     FactionCore.factionName core = Some (Factions.factionName faction) /\
     Factions._id faction = Some factionId /\
     In faction (getAllFactions (snd (create env owner core w)))) /\
  (forall k, k <> factionId ->
     findFactionById k (snd (create env owner core w)) = findFactionById k w).
Proof.
  intros H. destruct (create_success env owner core w H)
    as [name [c [rest [g [ranks [Hn [_ [_ [_ [_ [_ [_ Hw]]]]]]]]]]]].
  cbv zeta in Hw. rewrite Hw. unfold findFactionById, getAllFactions. simpl. split.
  - eexists. split; [apply get_set_same|]. repeat split; auto.
    apply in_values. exists factionId. apply get_In, get_set_same.
  - intros k Hk. apply get_set_other. congruence.
Qed.

(** X1 (witness): "Lost MC" created for character 9. *)
Lemma create_then_lookup_witness :
  (exists faction,
     findFactionById "f2" (snd (create (exampleEnv (Some "f2")) 9 lostMC offlineWorld)) =
       Some faction /\
     FactionCore.factionName lostMC = Some (Factions.factionName faction) /\
     Factions._id faction = Some "f2" /\
     In faction (getAllFactions (snd (create (exampleEnv (Some "f2")) 9 lostMC offlineWorld)))) /\
  (forall k, k <> "f2" ->
     findFactionById k (snd (create (exampleEnv (Some "f2")) 9 lostMC offlineWorld)) =
     findFactionById k offlineWorld).
Proof.
  apply (@create_then_lookup (exampleEnv (Some "f2")) 9 lostMC offlineWorld "f2").
  reflexivity.
Defined.

(** X2. When [create] succeeds, the stored [faction] reference of the founding
    character's document is the new identifier; the character documents with
    another [_id] are stored as before, and no stored bank changes. *)
Theorem create_sets_founder_reference (env : CreateEnv) (owner : Z)
  (core : FactionCore.t) (w : World) (factionId : string) :
  fst (create env owner core w) = Returns (mkResult true factionId) ->
  exists founder,
    hd_error (db.getManyCharactersById owner (database w)) = Some founder /\
    persistedFaction (Character._id founder) (snd (create env owner core w)) =
      Some (Some factionId) /\
    (forall i, i <> Character._id founder ->
       persistedFaction i (snd (create env owner core w)) = persistedFaction i w) /\
    (forall i, persistedBank i (snd (create env owner core w)) = persistedBank i w).
Proof.
  intros H. destruct (create_success env owner core w H)
    as [name [c [rest [g [ranks [_ [Hc [_ [_ [_ [_ [_ Hw]]]]]]]]]]]].
  cbv zeta in Hw. exists c. split; [now rewrite Hc|].
  unfold persistedFaction, persistedBank. rewrite Hw. cbn [database CharactersCollection].
  assert (Hin : In c (CharactersCollection (database w))).
  { assert (K : In c (db.getManyCharactersById owner (database w))) by (rewrite Hc; now left).
    now apply filter_In in K. }
  split; [|split].
  - rewrite find_character_map by reflexivity.
    destruct (find _ (CharactersCollection (database w))) as [x|] eqn:E; simpl.
    + apply find_some in E. destruct E as [_ E]. apply String.eqb_eq in E.
      now rewrite E, String.eqb_refl.
    + pose proof (find_none _ _ E c Hin) as K. cbn beta in K.
      now rewrite String.eqb_refl in K.
  - intros i Hi. rewrite find_character_map by reflexivity.
    destruct (find _ (CharactersCollection (database w))) as [x|] eqn:E; simpl; auto.
    apply find_some in E. destruct E as [_ E]. apply String.eqb_eq in E.
    destruct (String.eqb_spec (Character._id c) (Character._id x)); [congruence|reflexivity].
  - intros i. rewrite find_character_map by reflexivity.
    destruct (find _ (CharactersCollection (database w))) as [x|]; simpl; auto.
    now destruct (String.eqb (Character._id c) (Character._id x)).
Qed.

(** X2 (witness): character 9 founds "Lost MC". *)
Lemma create_sets_founder_reference_witness :
  exists founder,
    hd_error (db.getManyCharactersById 9 (database offlineWorld)) = Some founder /\
    persistedFaction (Character._id founder)
      (snd (create (exampleEnv (Some "f2")) 9 lostMC offlineWorld)) = Some (Some "f2") /\
    (forall i, i <> Character._id founder ->
       persistedFaction i (snd (create (exampleEnv (Some "f2")) 9 lostMC offlineWorld)) =
       persistedFaction i offlineWorld) /\
    (forall i, persistedBank i (snd (create (exampleEnv (Some "f2")) 9 lostMC offlineWorld)) =
               persistedBank i offlineWorld).
Proof.
  apply (@create_sets_founder_reference (exampleEnv (Some "f2")) 9 lostMC offlineWorld "f2").
  reflexivity.
Defined.

(** A name that a stored faction document holds is refused, before anything
    is written. *)
Lemma create_taken_name (env : CreateEnv) (owner : Z) (core : FactionCore.t)
  (w : World) (name : string) (d : Document) :
  FactionCore.factionName core = Some name ->
  In d (FactionsCollection (database w)) ->
  db.hasName name d = true ->
  succeeded (fst (create env owner core w)) = false /\
  snd (create env owner core w) = w.
Proof.
  intros Hn Hin Hd. unfold create. rewrite Hn.
  destruct (negb (truthy (Some name))); [now split|].
  destruct (db.getManyCharactersById owner (database w)) as [|c rest]; [now split|].
  destruct (truthy (Character.faction c)); [now split|].
  destruct (cloneRanks env 0 (DefaultRanks env)) as [|g ranks]; [now split|].
  destruct (db.getManyFactionsByName name (database w)) as [|e es] eqn:Ee.
  - assert (K : In d (db.getManyFactionsByName name (database w))).
    { apply filter_In. now split. }
    rewrite Ee in K. destruct K.
  - now split.
Qed.

(** X3. [create] with a [factionName] that a stored faction document already
    holds never succeeds, and it leaves the world as it was: nothing is added
    to the registry or to the collections. *)
Theorem create_rejects_taken_name (env : CreateEnv) (owner : Z) (core : FactionCore.t)
  (w : World) (name : string) (d : Document) :
  FactionCore.factionName core = Some name ->
  In d (FactionsCollection (database w)) ->
  db.hasName name d = true ->
  succeeded (fst (create env owner core w)) = false /\
  snd (create env owner core w) = w.
Proof.
  apply create_taken_name.
Qed.

(** X3 (witness): a second "Red  Team". *)
Lemma create_rejects_taken_name_witness :
  succeeded (fst (create (exampleEnv (Some "f2")) 9
                    (FactionCore.mk (Some "Red  Team") None) offlineWorld)) = false /\
  snd (create (exampleEnv (Some "f2")) 9
         (FactionCore.mk (Some "Red  Team") None) offlineWorld) = offlineWorld.
Proof.
  apply (@create_rejects_taken_name (exampleEnv (Some "f2")) 9
           (FactionCore.mk (Some "Red  Team") None) offlineWorld "Red  Team"
           (mkDocument "f1" (db.encode redTeam))).
  - reflexivity.
  - now left.
  - reflexivity.
Defined.

(** X4. After a successful [create], a further [create] with the same
    [factionName], for whichever character, does not succeed and changes
    nothing. *)
Theorem create_twice_same_name (env env' : CreateEnv) (owner owner' : Z)
  (core core' : FactionCore.t) (w : World) (factionId : string) :
  fst (create env owner core w) = Returns (mkResult true factionId) ->
  FactionCore.factionName core' = FactionCore.factionName core ->
  succeeded (fst (create env' owner' core' (snd (create env owner core w)))) = false /\
  snd (create env' owner' core' (snd (create env owner core w))) =
    snd (create env owner core w).
Proof.
  intros H Hsame. destruct (create_success env owner core w H)
    as [name [c [rest [g [ranks [Hn [_ [_ [_ [_ [_ [_ Hw]]]]]]]]]]]].
  cbv zeta in Hw. rewrite Hn in Hsame.
  eapply create_taken_name; [exact Hsame| |].
  - rewrite Hw. cbn [database FactionsCollection]. apply in_or_app. right. now left.
  - unfold db.hasName. simpl. apply String.eqb_refl.
Qed.

(** X4 (witness): "Lost MC" twice, the second time for character 8. *)
Lemma create_twice_same_name_witness :
  succeeded (fst (create (exampleEnv (Some "f3")) 8 lostMC
                    (snd (create (exampleEnv (Some "f2")) 9 lostMC offlineWorld)))) = false /\
  snd (create (exampleEnv (Some "f3")) 8 lostMC
         (snd (create (exampleEnv (Some "f2")) 9 lostMC offlineWorld))) =
    snd (create (exampleEnv (Some "f2")) 9 lostMC offlineWorld).
Proof.
  apply (@create_twice_same_name (exampleEnv (Some "f2")) (exampleEnv (Some "f3")) 9 8
           lostMC lostMC offlineWorld "f2"); reflexivity.
Defined.

(** X5. A character who has just founded a faction cannot found another: a
    further [create] for the same character number does not succeed and
    changes nothing, whatever name it asks for. *)
Theorem create_twice_same_founder (env env' : CreateEnv) (owner : Z)
  (core core' : FactionCore.t) (w : World) (factionId : string) :
  fst (create env owner core w) = Returns (mkResult true factionId) ->
  succeeded (fst (create env' owner core' (snd (create env owner core w)))) = false /\
  snd (create env' owner core' (snd (create env owner core w))) =
    snd (create env owner core w).
Proof.
  intros H. destruct (create_success env owner core w H)
    as [name [c [rest [g [ranks [_ [Hc [_ [_ [_ [_ [Hid Hw]]]]]]]]]]]].
  cbv zeta in Hw. rewrite Hw. unfold create.
  destruct (negb (truthy (FactionCore.factionName core'))); [now split|].
  unfold db.getManyCharactersById in *. cbn [database CharactersCollection].
  rewrite filter_map_commute.
  - rewrite Hc. cbn [map]. rewrite String.eqb_refl.
    cbn [Character.faction Character.with_faction].
    rewrite (truthy_nonempty Hid). now split.
  - intros x. now destruct (String.eqb (Character._id c) (Character._id x)).
Qed.

(** X5 (witness): character 9 founds "Lost MC" and then asks for "Angels". *)
Lemma create_twice_same_founder_witness :
  succeeded (fst (create (exampleEnv (Some "f3")) 9 (FactionCore.mk (Some "Angels") None)
                    (snd (create (exampleEnv (Some "f2")) 9 lostMC offlineWorld)))) = false /\
  snd (create (exampleEnv (Some "f3")) 9 (FactionCore.mk (Some "Angels") None)
         (snd (create (exampleEnv (Some "f2")) 9 lostMC offlineWorld))) =
    snd (create (exampleEnv (Some "f2")) 9 lostMC offlineWorld).
Proof.
  apply (@create_twice_same_founder (exampleEnv (Some "f2")) (exampleEnv (Some "f3")) 9
           lostMC (FactionCore.mk (Some "Angels") None) offlineWorld "f2"); reflexivity.
Defined.

(** ** Remove, continued *)

(** Where [remove] leaves the registry. *)
Lemma remove_registry (_id : string) (w : World) :
  factions (snd (remove _id w)) = JsObject.delete _id (factions w).
Proof.
  destruct (JsObject.get _id (factions w)) as [faction|] eqn:E.
  - now destruct (remove_present _id w E) as [_ [H _]].
  - rewrite (remove_absent _id w E). cbn [snd]. revert E.
    induction (factions w) as [|[k v] r IH]; simpl; auto.
    destruct (String.eqb _id k); [discriminate|]. intros E. now rewrite <- IH.
Qed.

(** X6. Once [remove] has succeeded for an identifier, a second [remove] and
    any [update] for that identifier answer "not found" and change nothing:
    no write reaches the database and no subscriber is called. *)
Theorem remove_then_not_found (_id : string) (w : World) :
  status (fst (remove _id w)) = true ->
  remove _id (snd (remove _id w)) = (mkResult false (notFound _id), snd (remove _id w)) /\
  (forall dbThrows fieldName partialObject,
     update dbThrows _id fieldName partialObject (snd (remove _id w)) =
     (mkResult false (notFound _id), snd (remove _id w))).
Proof.
  intros H. pose proof (remove_evicts _id w H) as E. unfold findFactionById in E.
  split.
  - now apply remove_absent.
  - intros dbThrows fieldName partialObject. unfold update. now rewrite E.
Qed.

(** X6 (witness): "f1" removed twice. *)
Lemma remove_then_not_found_witness :
  remove "f1" (snd (remove "f1" offlineWorld)) =
    (mkResult false (notFound "f1"), snd (remove "f1" offlineWorld)) /\
  (forall dbThrows fieldName partialObject,
     update dbThrows "f1" fieldName partialObject (snd (remove "f1" offlineWorld)) =
     (mkResult false (notFound "f1"), snd (remove "f1" offlineWorld))).
Proof.
  apply (@remove_then_not_found "f1" offlineWorld). reflexivity.
Defined.

(** X7. [remove] of one identifier leaves every other faction in the
    registry: the lookup of another identifier answers what it answered
    before, and [getAllFactions] lists no faction that it did not list
    before. *)
Theorem remove_leaves_other_factions (_id k : string) (w : World) :
  k <> _id ->
  findFactionById k (snd (remove _id w)) = findFactionById k w /\
  (forall f, In f (getAllFactions (snd (remove _id w))) -> In f (getAllFactions w)).
Proof.
  intros Hk. unfold findFactionById, getAllFactions. rewrite remove_registry. split.
  - apply get_delete_other. congruence.
  - intros f Hf. apply in_values in Hf. destruct Hf as [k' Hf].
    apply in_delete in Hf. apply in_values. exists k'. tauto.
Qed.

(** X7 (witness): removing "f2" from the world with two factions keeps
    "f1". *)
Lemma remove_leaves_other_factions_witness :
  (findFactionById "f2" twoFactions <> None /\
   status (fst (remove "f2" twoFactions)) = true /\
   findFactionById "f2" (snd (remove "f2" twoFactions)) = None) /\
  findFactionById "f1" (snd (remove "f2" twoFactions)) = findFactionById "f1" twoFactions /\
  (forall f, In f (getAllFactions (snd (remove "f2" twoFactions))) ->
             In f (getAllFactions twoFactions)).
Proof.
  split; [repeat split; discriminate|].
  apply (@remove_leaves_other_factions "f2" "f1" twoFactions). discriminate.
Defined.

Lemma creditOffline_same faction owner w member :
  creditOffline faction owner w member = w.
Proof.
  unfold creditOffline. destruct owner as [o|]; auto.
  destruct (Character.id member =? o); auto.
  rewrite updateCharacter_by_number. now destruct w.
Qed.

Lemma detachMember_vehicles faction owner w member :
  VehiclesCollection (database (detachMember faction owner w member)) =
    VehiclesCollection (database w) /\
  altVehicles (detachMember faction owner w member) = altVehicles w.
Proof.
  unfold detachMember.
  destruct (byCharacter (Character._id member) w) as [p|];
    [|now rewrite creditOffline_same].
  destruct (Player.valid p); [|now rewrite creditOffline_same].
  destruct (isOwnerIdentifier _ owner); split; reflexivity.
Qed.

Lemma detachAll_vehicles faction owner members w :
  VehiclesCollection (database (fold_left (detachMember faction owner) members w)) =
    VehiclesCollection (database w) /\
  altVehicles (fold_left (detachMember faction owner) members w) = altVehicles w.
Proof.
  apply (@fold_left_preserves _ _
           (fun a => VehiclesCollection (database a) = VehiclesCollection (database w) /\
                     altVehicles a = altVehicles w)); [|now split].
  intros a b [H1 H2]. destruct (detachMember_vehicles faction owner a b) as [K1 K2].
  split; congruence.
Qed.

Lemma disposeAll_documents (vehicles : list Vehicle.t) (w : World) :
  VehiclesCollection (database (fold_left disposeVehicle vehicles w)) =
  filter (fun v => negb (existsb (String.eqb v) (map Vehicle.vehicleId vehicles)))
         (VehiclesCollection (database w)).
Proof.
  revert w. induction vehicles as [|x r IH]; intros w; simpl.
  - induction (VehiclesCollection (database w)) as [|v l IHl]; simpl; congruence.
  - rewrite IH. simpl.
    induction (VehiclesCollection (database w)) as [|v l IHl]; simpl; auto.
    destruct (String.eqb v (Vehicle.vehicleId x)); simpl; auto.
    destruct (existsb _ _); simpl; congruence.
Qed.

(** X8. A successful [remove] deletes from the 'Vehicles' collection exactly
    the documents of the vehicles the faction lists: none of them is stored
    afterwards, and the collection is otherwise as it was, in the same
    order. *)
Theorem remove_deletes_vehicle_documents (_id : string) (w : World)
  (faction : Factions.t) :
  findFactionById _id w = Some faction ->
  VehiclesCollection (database (snd (remove _id w))) =
    filter (fun v => negb (existsb (String.eqb v) (vehicleIds faction)))
           (VehiclesCollection (database w)) /\
  (forall v, In v (vehicleIds faction) ->
             ~ In v (VehiclesCollection (database (snd (remove _id w))))).
Proof.
  intros H. unfold findFactionById in H.
  assert (K : VehiclesCollection (database (snd (remove _id w))) =
              filter (fun v => negb (existsb (String.eqb v) (vehicleIds faction)))
                     (VehiclesCollection (database w))).
  { unfold remove. rewrite H. cbn [snd]. rewrite disposeAll_documents.
    now rewrite (proj1 (detachAll_vehicles _ _ _ _)). }
  split; [exact K|]. intros v Hv Hin. rewrite K in Hin.
  apply filter_In in Hin. destruct Hin as [_ Hn].
  apply negb_true_iff in Hn.
  assert (E : existsb (String.eqb v) (vehicleIds faction) = true).
  { apply existsb_exists. exists v. split; [exact Hv|apply String.eqb_refl]. }
  congruence.
Qed.

(** X8 (witness): the vehicle "15" of the example faction. *)
Lemma remove_deletes_vehicle_documents_witness :
  VehiclesCollection (database (snd (remove "f1" offlineWorld))) =
    filter (fun v => negb (existsb (String.eqb v) (vehicleIds redTeam)))
           (VehiclesCollection (database offlineWorld)) /\
  (forall v, In v (vehicleIds redTeam) ->
             ~ In v (VehiclesCollection (database (snd (remove "f1" offlineWorld))))).
Proof.
  apply (@remove_deletes_vehicle_documents "f1" offlineWorld redTeam). reflexivity.
Defined.

(** [String(n)] tells integers apart. *)
Lemma ofNumber_inj (a b : Z) : Str.ofNumber a = Str.ofNumber b -> a = b.
Proof.
  unfold Str.ofNumber. intros H. apply DecimalZ.to_int_inj.
  assert (Hn : forall z, Z.to_int z <> Decimal.Pos Decimal.Nil /\
                         Z.to_int z <> Decimal.Neg Decimal.Nil).
  { intros [|p|p]; simpl; split; try discriminate; intros K; injection K;
      apply DecimalPos.Unsigned.to_uint_nonnil. }
  apply (f_equal NilZero.int_of_string) in H.
  rewrite !NilZero.isi in H by apply Hn. congruence.
Qed.

Lemma destroyFirst_incl (i : string) (l : list AltVehicle.t) (v : AltVehicle.t) :
  In v (destroyFirst i l) -> In v l.
Proof.
  induction l as [|a l IH]; simpl; auto.
  destruct (spawned i a); [now right|]. intros [H|H]; auto.
Qed.

Lemma destroyFirst_NoDup (i : string) (l : list AltVehicle.t) :
  NoDup (map AltVehicle.id l) -> NoDup (map AltVehicle.id (destroyFirst i l)).
Proof.
  induction l as [|a l IH]; simpl; auto. intros H.
  inversion H as [|? ? Hn Hl]; subst.
  destruct (spawned i a); [exact Hl|]. simpl. constructor; [|now apply IH].
  intros Hin. apply Hn. apply in_map_iff in Hin. destruct Hin as [v [Hv Hin]].
  apply in_map_iff. exists v. split; [exact Hv|]. eapply destroyFirst_incl, Hin.
Qed.

Lemma destroyFirst_none_left (i : string) (l : list AltVehicle.t) (v : AltVehicle.t) :
  NoDup (map AltVehicle.id l) -> In v (destroyFirst i l) -> spawned i v = false.
Proof.
  induction l as [|a l IH]; simpl; [tauto|]. intros H.
  inversion H as [|? ? Hn Hl]; subst.
  destruct (spawned i a) eqn:Ea.
  - intros Hin. destruct (spawned i v) eqn:Ev; [|reflexivity]. exfalso. apply Hn.
    unfold spawned in Ea, Ev. apply andb_true_iff in Ea, Ev.
    destruct Ea as [_ Ea]. destruct Ev as [_ Ev].
    apply String.eqb_eq in Ea, Ev. rewrite <- Ev in Ea. apply ofNumber_inj in Ea.
    rewrite Ea. now apply in_map.
  - intros [<-|Hin]; [exact Ea|now apply IH].
Qed.

Lemma disposeAll_spawned (vehicles : list Vehicle.t) (w : World) :
  NoDup (map AltVehicle.id (altVehicles w)) ->
  NoDup (map AltVehicle.id (altVehicles (fold_left disposeVehicle vehicles w))) /\
  (forall v, In v (altVehicles (fold_left disposeVehicle vehicles w)) ->
     In v (altVehicles w) /\
     forall x, In x vehicles -> spawned (Vehicle.vehicleId x) v = false).
Proof.
  revert w. induction vehicles as [|x r IH]; intros w Hnd; simpl.
  - split; [exact Hnd|]. intros v Hv. split; [exact Hv|]. intros y [].
  - destruct (IH (disposeVehicle w x)) as [Hn Hall].
    { simpl. now apply destroyFirst_NoDup. }
    split; [exact Hn|]. intros v Hv. destruct (Hall v Hv) as [Hin Hr].
    simpl in Hin. split; [eapply destroyFirst_incl, Hin|].
    intros y [<-|Hy]; [|now apply Hr].
    eapply destroyFirst_none_left; [exact Hnd|exact Hin].
Qed.

(** X9. When the spawned vehicles carry pairwise distinct numbers, a
    successful [remove] leaves no valid spawned vehicle whose number is the
    identifier of a vehicle of the faction, and it spawns nothing: every
    vehicle in the world afterwards was there before. *)
Theorem remove_destroys_spawned_vehicles (_id : string) (w : World)
  (faction : Factions.t) :
  findFactionById _id w = Some faction ->
  NoDup (map AltVehicle.id (altVehicles w)) ->
  Forall
    (fun v =>
       In v (altVehicles w) /\
       forall x, In x (Factions.vehicles faction) ->
         AltVehicle.valid v &&
         String.eqb (Str.ofNumber (AltVehicle.id v)) (Vehicle.vehicleId x) = false)
    (altVehicles (snd (remove _id w))).
Proof.
  intros H Hnd. apply Forall_forall. intros v.
  unfold findFactionById in H. unfold remove. rewrite H. cbn [snd].
  intros Hv.
  destruct (@disposeAll_spawned (Factions.vehicles faction)
              (fold_left
                 (detachMember faction
                    (option_map Member.id
                       (find Member.isOwner (JsObject.values (Factions.members faction)))))
                 (db.getManyCharactersByFaction (Factions._id faction)
                    (database (setFactions (JsObject.delete _id (factions w)) w)))
                 (setFactions (JsObject.delete _id (factions w)) w))) as [_ Hall].
  - now rewrite (proj2 (detachAll_vehicles _ _ _ _)).
  - destruct (Hall v Hv) as [Hin Hs]. split; [|exact Hs].
    now rewrite (proj2 (detachAll_vehicles _ _ _ _)) in Hin.
Qed.

(** X9 (witness): vehicle 15 of the example world. *)
Lemma remove_destroys_spawned_vehicles_witness :
  Forall
    (fun v =>
       In v (altVehicles offlineWorld) /\
       forall x, In x (Factions.vehicles redTeam) ->
         AltVehicle.valid v &&
         String.eqb (Str.ofNumber (AltVehicle.id v)) (Vehicle.vehicleId x) = false)
    (altVehicles (snd (remove "f1" offlineWorld))).
Proof.
  apply (@remove_destroys_spawned_vehicles "f1" offlineWorld redTeam).
  - reflexivity.
  - simpl. constructor; [intros []|constructor].
Defined.

(** ** What [remove] does to the stored characters and to the wallets *)

Lemma onlyCleared_trans (a b c : Character.t) :
  onlyCleared a b -> onlyCleared b c -> onlyCleared a c.
Proof.
  unfold onlyCleared. intros [-> | ->] [-> | ->]; auto.
Qed.

Lemma Forall2_onlyCleared_refl (l : list Character.t) : Forall2 onlyCleared l l.
Proof.
  induction l; constructor; auto. now left.
Qed.

Lemma Forall2_onlyCleared_trans (a b c : list Character.t) :
  Forall2 onlyCleared a b -> Forall2 onlyCleared b c -> Forall2 onlyCleared a c.
Proof.
  intros H. revert c. induction H as [|x y l l' Hxy Hl IH]; intros c Hc.
  - inversion Hc. constructor.
  - inversion Hc as [|? z ? l'' Hyz Hl']; subst. constructor.
    + eapply onlyCleared_trans; eauto.
    + now apply IH.
Qed.

Lemma detachMember_characters faction owner w member :
  Forall2 onlyCleared (CharactersCollection (database w))
          (CharactersCollection (database (detachMember faction owner w member))).
Proof.
  unfold detachMember.
  destruct (byCharacter (Character._id member) w) as [p|];
    [|rewrite creditOffline_same; apply Forall2_onlyCleared_refl].
  destruct (Player.valid p);
    [|rewrite creditOffline_same; apply Forall2_onlyCleared_refl].
  assert (K : Forall2 onlyCleared (CharactersCollection (database w))
                (CharactersCollection (database (characterSetFaction p "" w)))).
  { simpl. induction (CharactersCollection (database w)) as [|c l IH]; simpl;
      constructor; auto.
    destruct (String.eqb _ _); [now right|now left]. }
  now destruct (isOwnerIdentifier _ owner).
Qed.

Lemma remove_characters (_id : string) (w : World) :
  Forall2 onlyCleared (CharactersCollection (database w))
          (CharactersCollection (database (snd (remove _id w)))).
Proof.
  unfold remove. destruct (JsObject.get _id (factions w)) as [faction|];
    [|apply Forall2_onlyCleared_refl].
  cbn [snd].
  apply (@fold_left_preserves _ _
           (fun a => Forall2 onlyCleared (CharactersCollection (database w))
                             (CharactersCollection (database a)))).
  - intros a b Ha. exact Ha.
  - apply (@fold_left_preserves _ _
             (fun a => Forall2 onlyCleared (CharactersCollection (database w))
                               (CharactersCollection (database a)))).
    + intros a b Ha. eapply Forall2_onlyCleared_trans; [exact Ha|].
      apply detachMember_characters.
    + apply Forall2_onlyCleared_refl.
Qed.

(** X10. Whatever [remove] is given, each stored character document is
    afterwards what it was, or what it was with its [faction] reference
    replaced by the empty string: no document is added or dropped, and no
    stored [_id], number, name or bank changes. *)
Theorem remove_only_clears_references (_id : string) (w : World) :
  Forall2 onlyCleared (CharactersCollection (database w))
          (CharactersCollection (database (snd (remove _id w)))) /\
  map Character._id (CharactersCollection (database (snd (remove _id w)))) =
    map Character._id (CharactersCollection (database w)) /\
  map Character.id (CharactersCollection (database (snd (remove _id w)))) =
    map Character.id (CharactersCollection (database w)) /\
  map Character.name (CharactersCollection (database (snd (remove _id w)))) =
    map Character.name (CharactersCollection (database w)) /\
  map Character.bank (CharactersCollection (database (snd (remove _id w)))) =
    map Character.bank (CharactersCollection (database w)).
Proof.
  pose proof (remove_characters _id w) as H. split; [exact H|].
  induction H as [|c c' l l' Hc Hl IH]; [repeat split|].
  destruct IH as [I1 [I2 [I3 I4]]].
  destruct Hc as [-> | ->]; simpl; repeat split; congruence.
Qed.

(** ** Update and the subscribers, continued *)


Lemma forEach_reaches_end (cbs : list FactionChangeCallback) (_id fieldName : string) :
  snd (forEach cbs _id fieldName) = true <->
  forall cb, In cb cbs -> throws cb _id fieldName = false.
Proof.
  split.
  - induction cbs as [|c r IH]; simpl; [tauto|].
    destruct (throws c _id fieldName) eqn:E; simpl; [discriminate|].
    destruct (forEach r _id fieldName) as [calls done]. simpl in *.
    intros Hd cb [<-|Hin]; auto.
  - intros H. now rewrite (forEach_quiet _ _ _ H).
Qed.

(** X11. For an identifier that is not one of the names every object
    inherits from [Object.prototype], [update] returns success exactly when
    the identifier is in the registry, [db.update] does not throw and no
    registered subscriber throws on the call. *)
Theorem update_succeeds_iff (dbThrows : bool) (_id fieldName : string)
  (partialObject : JsObject.t Value) (w : World) :
  ~ In _id inheritedKeys ->
  (status (fst (update dbThrows _id fieldName partialObject w)) = true <->
   findFactionById _id w <> None /\
   dbThrows = false /\
   forall cb, In cb (callbacks w) -> throws cb _id fieldName = false).
Proof.
  intros _. unfold findFactionById, update.
  destruct (JsObject.get _id (factions w)) as [faction|].
  - destruct dbThrows; simpl.
    + split; [discriminate|]. intros [_ [K _]]. discriminate.
    + rewrite <- (forEach_reaches_end (callbacks w) _id fieldName).
      destruct (forEach (callbacks w) _id fieldName) as [calls done].
      destruct done; simpl; split; try discriminate; try tauto.
      intros _. repeat split. discriminate.
  - simpl. split; [discriminate|]. intros [K _]. now elim K.
Qed.

(** X11 (witness): the identifier "f1" of the example world. *)
Lemma update_succeeds_iff_witness :
  status (fst (update false "f1" "bank" [("bank", VNum 500)] offlineWorld)) = true <->
  findFactionById "f1" offlineWorld <> None /\
  false = false /\
  forall cb, In cb (callbacks offlineWorld) -> throws cb "f1" "bank" = false.
Proof.
  apply (@update_succeeds_iff false "f1" "bank" [("bank", VNum 500)] offlineWorld).
  simpl. intuition discriminate.
Defined.



(** X13. A subscriber registered with [onUpdate] is called by the next
    successful [update], after all the subscribers registered before it; and
    [onUpdate] itself changes nothing but the subscriber list. *)
Theorem onUpdate_then_update (callback : FactionChangeCallback) (dbThrows : bool)
  (_id fieldName : string) (partialObject : JsObject.t Value) (w : World) :
  status (fst (update dbThrows _id fieldName partialObject (onUpdate callback w))) = true ->
  delivered (snd (update dbThrows _id fieldName partialObject (onUpdate callback w))) =
    (delivered w ++ notifyAll (callbacks w) _id fieldName
       ++ [(subscriber callback, _id, fieldName)])%list /\
  factions (onUpdate callback w) = factions w /\
  database (onUpdate callback w) = database w /\
  delivered (onUpdate callback w) = delivered w.
Proof.
  intros Hs. split; [|repeat split].
  destruct (update_cases dbThrows _id fieldName partialObject (onUpdate callback w))
    as [[_ H]|[[_ H]|[_ [calls [done [Hc [Hd H]]]]]]];
    try (rewrite H in Hs; discriminate).
  rewrite Hs in Hd. subst done. rewrite H. simpl.
  rewrite (forEach_done _ _ _ Hc). simpl. unfold notifyAll. now rewrite map_app.
Qed.

(** X13 (witness): a third subscriber joins the two of the example world. *)
Lemma onUpdate_then_update_witness :
  delivered (snd (update false "f1" "bank" [("bank", VNum 500)]
                    (onUpdate (quiet 3) offlineWorld))) =
    (delivered offlineWorld ++ notifyAll (callbacks offlineWorld) "f1" "bank"
       ++ [(subscriber (quiet 3), "f1", "bank")])%list /\
  factions (onUpdate (quiet 3) offlineWorld) = factions offlineWorld /\
  database (onUpdate (quiet 3) offlineWorld) = database offlineWorld /\
  delivered (onUpdate (quiet 3) offlineWorld) = delivered offlineWorld.
Proof.
  apply (@onUpdate_then_update (quiet 3) false "f1" "bank" [("bank", VNum 500)]
           offlineWorld).
  reflexivity.
Defined.

(** ** Loading the registry *)

Lemma initStep_database (w : World) (i : string) :
  database (initStep w i) = database w /\
  callbacks (initStep w i) = callbacks w /\
  players (initStep w i) = players w /\
  altVehicles (initStep w i) = altVehicles w /\
  delivered (initStep w i) = delivered w.
Proof.
  unfold initStep. destruct (db.getManyFactionsById i (database w)); repeat split.
Qed.

Lemma initStep_other (w : World) (i k : string) :
  k <> i -> JsObject.get k (factions (initStep w i)) = JsObject.get k (factions w).
Proof.
  intros Hk. unfold initStep.
  destruct (db.getManyFactionsById i (database w)) as [|f rest] eqn:E; [reflexivity|].
  destruct (@getManyFactionsById_sound i (database w) f) as [Hid _].
  { rewrite E. now left. }
  unfold InternalFunctions.update, InternalFunctions.key. rewrite Hid. simpl.
  apply get_set_other. congruence.
Qed.

Lemma initStep_same (w : World) (i : string) (f : Factions.t) (rest : list Factions.t) :
  db.getManyFactionsById i (database w) = f :: rest ->
  JsObject.get i (factions (initStep w i)) = Some f.
Proof.
  intros E. unfold initStep. rewrite E.
  destruct (@getManyFactionsById_sound i (database w) f) as [Hid _].
  { rewrite E. now left. }
  unfold InternalFunctions.update, InternalFunctions.key. rewrite Hid. simpl.
  apply get_set_same.
Qed.

Lemma initAll_database (l : list string) (w : World) :
  database (fold_left initStep l w) = database w /\
  callbacks (fold_left initStep l w) = callbacks w /\
  players (fold_left initStep l w) = players w /\
  altVehicles (fold_left initStep l w) = altVehicles w /\
  delivered (fold_left initStep l w) = delivered w.
Proof.
  apply (@fold_left_preserves _ _
           (fun a => database a = database w /\ callbacks a = callbacks w /\
                     players a = players w /\ altVehicles a = altVehicles w /\
                     delivered a = delivered w)); [|repeat split].
  intros a i [H1 [H2 [H3 [H4 H5]]]].
  destruct (initStep_database a i) as [K1 [K2 [K3 [K4 K5]]]].
  repeat split; congruence.
Qed.

Lemma initAll_other (l : list string) (w : World) (k : string) :
  ~ In k l ->
  JsObject.get k (factions (fold_left initStep l w)) = JsObject.get k (factions w).
Proof.
  revert w. induction l as [|i l IH]; intros w Hk; simpl; [reflexivity|].
  rewrite IH by (intros H; apply Hk; now right).
  apply initStep_other. intros ->. apply Hk. now left.
Qed.

Lemma initAll_loaded (l : list string) (w : World) (i : string) (f : Factions.t)
  (rest : list Factions.t) :
  In i l ->
  db.getManyFactionsById i (database w) = f :: rest ->
  JsObject.get i (factions (fold_left initStep l w)) = Some f.
Proof.
  revert w. induction l as [|j l IH]; intros w Hin E; simpl; [destruct Hin|].
  destruct (in_dec string_dec i l) as [Hl|Hl].
  - apply IH; [exact Hl|]. now rewrite (proj1 (initStep_database w j)).
  - destruct Hin as [->|Hin]; [|contradiction].
    rewrite (@initAll_other l (initStep w i) i Hl). eapply initStep_same, E.
Qed.

Lemma init_lookup (w : World) (i : string) (f : Factions.t) (rest : list Factions.t) :
  db.getManyFactionsById i (database w) = f :: rest ->
  JsObject.get i (factions (init w)) = Some f.
Proof.
  intros E.
  destruct (@getManyFactionsById_sound i (database w) f) as [_ Hin].
  { rewrite E. now left. }
  unfold init.
  destruct (db.getAll (database w)) as [|j l] eqn:El; [destruct Hin|].
  cbn [List.length Nat.eqb]. eapply initAll_loaded; eauto.
Qed.

Lemma init_database (w : World) : database (init w) = database w.
Proof.
  unfold init. destruct (List.length _ =? 0)%nat; [reflexivity|].
  apply initAll_database.
Qed.

(** X14. After [init], [findFactionById] answers, for every identifier under
    which the faction collection holds a record, the record that
    [db.getMany({ _id })] puts first. *)
Theorem init_loads_stored_factions (w : World) (i : string) (f : Factions.t)
  (rest : list Factions.t) :
  db.getManyFactionsById i (database w) = f :: rest ->
  findFactionById i (init w) = Some f /\ Factions._id f = Some i.
Proof.
  intros E. split; [now apply (@init_lookup w i f rest E)|].
  apply (@getManyFactionsById_sound i (database w) f). rewrite E. now left.
Qed.

(** X14 (witness): the stored "Red  Team" is loaded into an empty registry. *)
Lemma init_loads_stored_factions_witness :
  findFactionById "f1" (init (setFactions [] offlineWorld)) = Some redTeam /\
  Factions._id redTeam = Some "f1".
Proof.
  apply (@init_loads_stored_factions (setFactions [] offlineWorld) "f1" redTeam []).
  reflexivity.
Defined.

(** X15. [init] only adds to the registry: it writes nothing to the database,
    calls no subscriber, keeps what the registry holds under identifiers that
    are not in the faction collection, and with an empty collection it leaves
    the world as it is. *)
Theorem init_only_loads (w : World) :
  database (init w) = database w /\
  callbacks (init w) = callbacks w /\
  delivered (init w) = delivered w /\
  (forall k, ~ In k (db.getAll (database w)) ->
     findFactionById k (init w) = findFactionById k w) /\
  (FactionsCollection (database w) = [] -> init w = w).
Proof.
  unfold findFactionById, init.
  destruct (List.length (db.getAll (database w)) =? 0)%nat eqn:El.
  - repeat split; auto.
  - destruct (initAll_database (db.getAll (database w)) w) as [H1 [H2 [_ [_ H5]]]].
    repeat split; auto.
    + intros k Hk. now apply initAll_other.
    + intros He. unfold db.getAll in El. rewrite He in El. discriminate.
Qed.

Lemma initAll_fixed (l : list string) (w : World) :
  (forall i, In i l -> initStep w i = w) -> fold_left initStep l w = w.
Proof.
  induction l as [|i l IH]; simpl; intros H; [reflexivity|].
  rewrite (H i (or_introl eq_refl)). apply IH. intros j Hj. apply H. now right.
Qed.

(** X16. Loading twice is loading once: [init (init w) = init w]. *)
Theorem init_idempotent (w : World) : init (init w) = init w.
Proof.
  unfold init at 1. rewrite init_database.
  destruct (List.length (db.getAll (database w)) =? 0)%nat; [reflexivity|].
  apply initAll_fixed. intros i _. unfold initStep. rewrite init_database.
  destruct (db.getManyFactionsById i (database w)) as [|f rest] eqn:E; [reflexivity|].
  destruct (@getManyFactionsById_sound i (database w) f) as [Hid _].
  { rewrite E. now left. }
  unfold InternalFunctions.update, InternalFunctions.key. rewrite Hid.
  rewrite (set_same_value _ _ (@init_lookup w i f rest E)). now destruct (init w).
Qed.

Lemma filter_none (A : Type) (p : A -> bool) (l : list A) :
  (forall x, In x l -> p x = false) -> filter p l = [].
Proof.
  induction l as [|a l IH]; simpl; intros H; [reflexivity|].
  rewrite (H a (or_introl eq_refl)). apply IH. auto.
Qed.

(** X17. A faction survives a restart: when [create] succeeds with an
    identifier that no stored faction document bore before, [init] run on
    the resulting database with an empty registry puts back, under that
    identifier, the very record [create] put in the registry. *)
Theorem create_then_restart (env : CreateEnv) (owner : Z) (core : FactionCore.t)
  (w : World) (factionId : string) :
  fst (create env owner core w) = Returns (mkResult true factionId) ->
  ~ In factionId (db.getAll (database w)) ->
  findFactionById factionId (init (setFactions [] (snd (create env owner core w)))) =
  findFactionById factionId (snd (create env owner core w)).
Proof.
  intros H Hfresh. destruct (create_success env owner core w H)
    as [name [c [rest [g [ranks [_ [_ [_ [_ [_ [_ [_ Hw]]]]]]]]]]]].
  cbv zeta in Hw. rewrite Hw. unfold findFactionById at 2. cbn [factions].
  rewrite get_set_same. unfold findFactionById.
  eapply init_lookup with (rest := []).
  unfold db.getManyFactionsById. cbn [setFactions database FactionsCollection].
  rewrite filter_app, filter_none.
  - simpl. now rewrite String.eqb_refl.
  - intros x Hx. apply String.eqb_neq. intros E. apply Hfresh. rewrite <- E.
    unfold db.getAll. now apply in_map.
Qed.

(** X17 (witness): "Lost MC" is stored under the new identifier "f2". *)
Lemma create_then_restart_witness :
  findFactionById "f2"
    (init (setFactions [] (snd (create (exampleEnv (Some "f2")) 9 lostMC offlineWorld)))) =
  findFactionById "f2" (snd (create (exampleEnv (Some "f2")) 9 lostMC offlineWorld)).
Proof.
  apply (@create_then_restart (exampleEnv (Some "f2")) 9 lostMC offlineWorld "f2").
  - reflexivity.
  - simpl. intros [H|[]]. discriminate.
Defined.

(** ** Name lookup, continued *)

Lemma includes_empty (s : string) : Str.includes s "" = true.
Proof. destruct s; reflexivity. Qed.


Lemma find_all (A : Type) (p : A -> bool) (l : list A) :
  (forall x, p x = true) -> find p l = hd_error l.
Proof.
  intros H. destruct l as [|a l]; simpl; [reflexivity|]. now rewrite H.
Qed.

(** X18. A query that is empty once its spaces are removed matches every
    name: [findFactionByName] then returns the first faction [getAllFactions]
    lists, and null only when the registry is empty. (The case mapping maps
    the empty string to itself.) *)
Theorem findFactionByName_blank_query (toLowerCase : string -> string) (q : string)
  (w : World) :
  toLowerCase "" = "" ->
  Str.removeSpaces q = "" ->
  findFactionByName toLowerCase q w = hd_error (getAllFactions w).
Proof.
  intros Hl H. unfold findFactionByName, getAllFactions. apply find_all.
  intros f. unfold nameMatches, normalize. rewrite H, Hl. apply includes_empty.
Qed.

(** X18 (witness): a query of three spaces. *)
Lemma findFactionByName_blank_query_witness :
  findFactionByName Str.asciiLowerCase "   " offlineWorld =
  hd_error (getAllFactions offlineWorld).
Proof.
  apply (@findFactionByName_blank_query Str.asciiLowerCase "   " offlineWorld);
    reflexivity.
Defined.



(** ** What [getAllFactions] lists *)

Lemma delete_perm (V : Type) (k : string) (v : V) (o : JsObject.t V) :
  NoDup (JsObject.keys o) ->
  JsObject.get k o = Some v ->
  Permutation (map snd o) (v :: map snd (JsObject.delete k o)).
Proof.
  unfold JsObject.keys. induction o as [|[k1 v1] r IH]; simpl; [discriminate|].
  intros Hn. inversion Hn as [|? ? Hk Hr]; subst.
  destruct (String.eqb_spec k k1) as [->|Hne].
  - intros H. injection H as ->.
    replace (JsObject.delete k1 r) with r; [reflexivity|].
    clear - Hk. induction r as [|[k2 v2] r IH]; simpl; [reflexivity|].
    destruct (String.eqb_spec k1 k2) as [->|_].
    + elim Hk. now left.
    + rewrite <- IH; [reflexivity|]. intros H. apply Hk. now right.
  - intros H. simpl. rewrite (IH Hr H). apply perm_swap.
Qed.

(** X20. When [create] succeeds with an identifier that was not in the
    registry, [getAllFactions] lists afterwards what it listed before and the
    new record, once each. *)
Theorem create_adds_one_faction (env : CreateEnv) (owner : Z) (core : FactionCore.t)
  (w : World) (factionId : string) :
  fst (create env owner core w) = Returns (mkResult true factionId) ->
  findFactionById factionId w = None ->
  exists faction,
    findFactionById factionId (snd (create env owner core w)) = Some faction /\
    Permutation (getAllFactions (snd (create env owner core w)))
                (faction :: getAllFactions w).
Proof.
  intros H Hnew. destruct (create_success env owner core w H)
    as [name [c [rest [g [ranks [_ [_ [_ [_ [_ [_ [_ Hw]]]]]]]]]]]].
  cbv zeta in Hw. rewrite Hw. unfold findFactionById in *. unfold getAllFactions.
  cbn [factions]. eexists. split; [apply get_set_same|].
  rewrite (set_absent _ _ _ Hnew).
  rewrite values_perm, (values_perm (factions w)), map_app. simpl.
  apply Permutation_sym, Permutation_cons_append.
Qed.

(** X20 (witness): "Lost MC" joins "Red  Team". *)
Lemma create_adds_one_faction_witness :
  exists faction,
    findFactionById "f2" (snd (create (exampleEnv (Some "f2")) 9 lostMC offlineWorld)) =
      Some faction /\
    Permutation (getAllFactions (snd (create (exampleEnv (Some "f2")) 9 lostMC offlineWorld)))
                (faction :: getAllFactions offlineWorld).
Proof.
  apply (@create_adds_one_faction (exampleEnv (Some "f2")) 9 lostMC offlineWorld "f2");
    reflexivity.
Defined.

(** X21. In a registry with pairwise distinct keys, a successful [remove]
    takes exactly the removed record out of what [getAllFactions] lists. *)
Theorem remove_takes_one_faction (_id : string) (w : World) (faction : Factions.t) :
  NoDup (JsObject.keys (factions w)) ->
  findFactionById _id w = Some faction ->
  Permutation (getAllFactions w) (faction :: getAllFactions (snd (remove _id w))).
Proof.
  intros Hn H. unfold findFactionById in H. unfold getAllFactions.
  rewrite remove_registry, values_perm, (values_perm (JsObject.delete _id (factions w))).
  now apply delete_perm.
Qed.

(** X21 (witness): removing "f1" from the example world. *)
Lemma remove_takes_one_faction_witness :
  Permutation (getAllFactions offlineWorld)
              (redTeam :: getAllFactions (snd (remove "f1" offlineWorld))).
Proof.
  apply (@remove_takes_one_faction "f1" offlineWorld redTeam).
  - simpl. constructor; [intros []|constructor].
  - reflexivity.
Defined.

(** ** The connected players during [remove] *)

Lemma NoDup_map_eq (A B : Type) (f : A -> B) (l : list A) (a b : A) :
  NoDup (map f l) -> In a l -> In b l -> f a = f b -> a = b.
Proof.
  induction l as [|x l IH]; simpl; [tauto|]. intros Hn.
  inversion Hn as [|? ? Hx Hl]; subst. intros [->|Ha] [->|Hb] E; auto.
  - elim Hx. rewrite E. now apply in_map.
  - elim Hx. rewrite <- E. now apply in_map.
Qed.

Lemma handles_of_identity (l : list Player.t) :
  map Player.handle l = map (fun i => fst (fst (fst i))) (map playerIdentity l).
Proof. rewrite map_map. reflexivity. Qed.

Lemma byCharacter_identity (i : string) (a w : World) :
  map playerIdentity (players a) = map playerIdentity (players w) ->
  option_map playerIdentity (byCharacter i a) = option_map playerIdentity (byCharacter i w).
Proof.
  unfold byCharacter. generalize (players a) (players w).
  induction l as [|x l IH]; intros [|y l'] H; try discriminate; [reflexivity|].
  simpl in H.
  assert (Hxy : playerIdentity x = playerIdentity y) by congruence.
  assert (Hl : map playerIdentity l = map playerIdentity l') by congruence.
  simpl.
  assert (E : Character._id (Player.document x) = Character._id (Player.document y)).
  { unfold playerIdentity in Hxy. congruence. }
  rewrite E. destruct (String.eqb _ i); simpl; [now rewrite Hxy|now apply IH].
Qed.

Lemma creditsMember_identity (owner : option Z) (a w : World) (h : nat)
  (member : Character.t) :
  map playerIdentity (players a) = map playerIdentity (players w) ->
  creditsMember owner a h member = creditsMember owner w h member.
Proof.
  intros H. unfold creditsMember.
  pose proof (byCharacter_identity (Character._id member) a w H) as K.
  destruct (byCharacter (Character._id member) a) as [p|],
           (byCharacter (Character._id member) w) as [q|]; try discriminate; auto.
  simpl in K. unfold playerIdentity in K. injection K as -> -> _ ->. reflexivity.
Qed.

Lemma byCharacter_In (i : string) (w : World) (p : Player.t) :
  byCharacter i w = Some p ->
  In p (players w) /\ Character._id (Player.document p) = i.
Proof.
  intros H. apply find_some in H. destruct H as [Hin E].
  split; [exact Hin|now apply String.eqb_eq].
Qed.

(** One turn of the loop of [remove], seen from the connected players. *)
Lemma detachMember_players (faction : Factions.t) (owner : option Z) (a : World)
  (member : Character.t) :
  NoDup (map Player.handle (players a)) ->
  map playerIdentity (players (detachMember faction owner a member)) =
    map playerIdentity (players a) /\
  map handleAndWallet (players (detachMember faction owner a member)) =
    map (fun q => (Player.handle q,
                   Player.currency q +
                   (if creditsMember owner a (Player.handle q) member
                    then Factions.bank faction else 0)))
        (players a).
Proof.
  intros Hn. unfold detachMember, creditsMember.
  destruct (byCharacter (Character._id member) a) as [p|] eqn:Ep.
  2:{ rewrite creditOffline_same. split; [reflexivity|].
      apply map_ext. intros q. unfold handleAndWallet. now rewrite Z.add_0_r. }
  destruct (byCharacter_In _ _ Ep) as [Hin _].
  assert (Hsame : forall q, In q (players a) ->
                    Nat.eqb (Player.handle q) (Player.handle p) = true -> q = p).
  { intros q Hq E. apply Nat.eqb_eq in E.
    eapply NoDup_map_eq; eauto. }
  destruct (Player.valid p) eqn:Ev.
  2:{ rewrite creditOffline_same. split; [reflexivity|].
      apply map_ext. intros q. unfold handleAndWallet. simpl. now rewrite Z.add_0_r. }
  destruct (isOwnerIdentifier (Character.id (Player.document p)) owner) eqn:Eo.
  - simpl. rewrite !map_map. split.
    + apply map_ext_in. intros q Hq. simpl.
      destruct (Nat.eqb (Player.handle q) (Player.handle p)) eqn:E; simpl.
      * rewrite Nat.eqb_refl. rewrite (Hsame q Hq E).
        unfold playerIdentity. simpl. now rewrite Ev.
      * now rewrite E.
    + apply map_ext_in. intros q Hq. simpl. unfold handleAndWallet.
      destruct (Nat.eqb (Player.handle q) (Player.handle p)) eqn:E; simpl.
      * rewrite Nat.eqb_refl. simpl. rewrite (Hsame q Hq E).
        now rewrite Nat.eqb_refl.
      * rewrite E. rewrite Nat.eqb_sym in E. rewrite E. now rewrite Z.add_0_r.
  - simpl. rewrite !map_map. split.
    + apply map_ext_in. intros q Hq.
      destruct (Nat.eqb (Player.handle q) (Player.handle p)) eqn:E; [|reflexivity].
      rewrite (Hsame q Hq E). unfold playerIdentity. simpl. now rewrite Ev.
    + apply map_ext_in. intros q Hq. unfold handleAndWallet.
      rewrite Z.add_0_r.
      destruct (Nat.eqb (Player.handle q) (Player.handle p)) eqn:E; [|reflexivity].
      now rewrite (Hsame q Hq E).
Qed.

Lemma wallets_compose (d1 d2 : nat -> Z) (l0 l1 l2 : list Player.t) :
  map handleAndWallet l1 =
    map (fun q => (Player.handle q, Player.currency q + d1 (Player.handle q))) l0 ->
  map handleAndWallet l2 =
    map (fun q => (Player.handle q, Player.currency q + d2 (Player.handle q))) l1 ->
  map handleAndWallet l2 =
    map (fun q => (Player.handle q,
                   Player.currency q + (d1 (Player.handle q) + d2 (Player.handle q)))) l0.
Proof.
  revert l1 l2. induction l0 as [|x l0 IH]; intros [|y l1] [|z l2] H1 H2;
    try discriminate; [reflexivity|].
  simpl in *. unfold handleAndWallet in *.
  injection H1 as Hh1 Hc1 Ht1. injection H2 as Hh2 Hc2 Ht2.
  f_equal; [|eapply IH; eauto].
  rewrite Hh2, Hc2, Hh1, Hc1. f_equal. ring.
Qed.

Lemma detachAll_players (faction : Factions.t) (owner : option Z)
  (members : list Character.t) (a : World) :
  NoDup (map Player.handle (players a)) ->
  map playerIdentity (players (fold_left (detachMember faction owner) members a)) =
    map playerIdentity (players a) /\
  map handleAndWallet (players (fold_left (detachMember faction owner) members a)) =
    map (fun q => (Player.handle q,
                   Player.currency q +
                   creditsDue (Factions.bank faction) owner a members (Player.handle q)))
        (players a).
Proof.
  revert a. induction members as [|m l IH]; intros a Hn; simpl.
  - split; [reflexivity|]. apply map_ext. intros q. unfold handleAndWallet.
    now rewrite Z.add_0_r.
  - destruct (detachMember_players faction owner a m Hn) as [Hi Hw].
    assert (Hn' : NoDup (map Player.handle (players (detachMember faction owner a m)))).
    { now rewrite handles_of_identity, Hi, <- handles_of_identity. }
    destruct (IH _ Hn') as [Hi' Hw']. split; [congruence|].
    assert (Hd : forall h,
              creditsDue (Factions.bank faction) owner
                         (detachMember faction owner a m) l h =
              creditsDue (Factions.bank faction) owner a l h).
    { intros h. unfold creditsDue. clear - Hi.
      induction l as [|m' l' IHl]; simpl; [reflexivity|].
      now rewrite IHl, (creditsMember_identity owner _ a h m' Hi). }
    assert (Hw'' :
      map handleAndWallet
          (players (fold_left (detachMember faction owner) l
                              (detachMember faction owner a m))) =
      map (fun q => (Player.handle q,
                     Player.currency q +
                     creditsDue (Factions.bank faction) owner a l (Player.handle q)))
          (players (detachMember faction owner a m))).
    { rewrite Hw'. apply map_ext. intros q. now rewrite Hd. }
    exact (@wallets_compose
             (fun h => if creditsMember owner a h m then Factions.bank faction else 0)
             (fun h => creditsDue (Factions.bank faction) owner a l h)
             _ _ _ Hw Hw'').
Qed.

Lemma disposeAll_players (vehicles : list Vehicle.t) (w : World) :
  players (fold_left disposeVehicle vehicles w) = players w.
Proof.
  revert w. induction vehicles as [|x r IH]; intros w; simpl; [reflexivity|].
  now rewrite IH.
Qed.

Lemma wallet_lookup (d : nat -> Z) (l l' : list Player.t) (h : nat) :
  map handleAndWallet l' =
    map (fun q => (Player.handle q, Player.currency q + d (Player.handle q))) l ->
  option_map Player.currency (find (fun p => Nat.eqb (Player.handle p) h) l') =
  option_map (fun c => c + d h)
    (option_map Player.currency (find (fun p => Nat.eqb (Player.handle p) h) l)).
Proof.
  revert l'. induction l as [|x l IH]; intros [|y l'] H; try discriminate; [reflexivity|].
  simpl in *. unfold handleAndWallet in H. injection H as Hh Hc Ht. rewrite Hh.
  destruct (Nat.eqb (Player.handle x) h) eqn:E; simpl.
  - apply Nat.eqb_eq in E. now rewrite Hc, E.
  - now apply IH.
Qed.

(** What [remove] does to the wallet with handle [h]. *)
Lemma remove_wallet (_id : string) (w : World) (faction : Factions.t) (h : nat) :
  findFactionById _id w = Some faction ->
  NoDup (map Player.handle (players w)) ->
  walletOf h (snd (remove _id w)) =
  option_map
    (fun c => c + creditsDue (Factions.bank faction)
                    (option_map Member.id
                       (find Member.isOwner (JsObject.values (Factions.members faction))))
                    w (db.getManyCharactersByFaction (Factions._id faction) (database w)) h)
    (walletOf h w).
Proof.
  intros H Hn. unfold findFactionById in H. unfold walletOf, remove. rewrite H.
  cbn [snd]. rewrite disposeAll_players.
  destruct (@detachAll_players faction
              (option_map Member.id
                 (find Member.isOwner (JsObject.values (Factions.members faction))))
              (db.getManyCharactersByFaction (Factions._id faction)
                 (database (setFactions (JsObject.delete _id (factions w)) w)))
              (setFactions (JsObject.delete _id (factions w)) w) Hn) as [_ Hw].
  exact (wallet_lookup _ _ _ h Hw).
Qed.

Lemma creditsDue_zero (bank : Z) (owner : option Z) (w : World)
  (members : list Character.t) (h : nat) :
  (forall m, In m members -> creditsMember owner w h m = false) ->
  creditsDue bank owner w members h = 0.
Proof.
  unfold creditsDue. induction members as [|x r IH]; simpl; intros H; [reflexivity|].
  rewrite (H x (or_introl eq_refl)), IH; auto.
Qed.

Lemma creditsDue_single (bank : Z) (owner : option Z) (w : World)
  (members : list Character.t) (h : nat) (c : Character.t) :
  NoDup (map Character._id members) ->
  In c members ->
  creditsMember owner w h c = true ->
  (forall m, In m members -> creditsMember owner w h m = true ->
             Character._id m = Character._id c) ->
  creditsDue bank owner w members h = bank.
Proof.
  induction members as [|x r IH]; simpl; [tauto|]. intros Hn.
  inversion Hn as [|? ? Hx Hr]; subst. intros Hin Hc Hall.
  change (creditsDue bank owner w (x :: r) h)
    with ((if creditsMember owner w h x then bank else 0) + creditsDue bank owner w r h).
  destruct Hin as [->|Hin].
  - rewrite Hc, creditsDue_zero; [ring|]. intros m Hm.
    destruct (creditsMember owner w h m) eqn:E; [|reflexivity]. exfalso. apply Hx.
    rewrite <- (Hall m (or_intror Hm) E). now apply in_map.
  - destruct (creditsMember owner w h x) eqn:E.
    + exfalso. apply Hx. rewrite (Hall x (or_introl eq_refl) E). now apply in_map.
    + rewrite IH; auto.
Qed.

(** The characters of a faction are told apart by [_id] when all stored
    characters are. *)
Lemma members_distinct (reference : option string) (d : Database) :
  NoDup (map Character._id (CharactersCollection d)) ->
  NoDup (map Character._id (db.getManyCharactersByFaction reference d)).
Proof.
  unfold db.getManyCharactersByFaction.
  induction (CharactersCollection d) as [|c chars IH]; intros Hd; [constructor|].
  simpl in *. apply NoDup_cons_iff in Hd. destruct Hd as [Hc Hd].
  destruct (db.sameReference (Character.faction c) reference); [|now apply IH].
  simpl. apply NoDup_cons_iff. split; [|now apply IH].
  intros Hin. apply Hc. apply in_map_iff in Hin. destruct Hin as [x [Hx Hin]].
  apply filter_In in Hin. rewrite <- Hx. apply in_map. tauto.
Qed.

Lemma find_by_handle (l : list Player.t) (p : Player.t) :
  NoDup (map Player.handle l) -> In p l ->
  find (fun q => Nat.eqb (Player.handle q) (Player.handle p)) l = Some p.
Proof.
  intros Hn Hin.
  destruct (find (fun q => Nat.eqb (Player.handle q) (Player.handle p)) l) as [q|] eqn:E.
  - apply find_some in E. destruct E as [Hq E]. apply Nat.eqb_eq in E.
    f_equal. eapply NoDup_map_eq; eauto.
  - pose proof (find_none _ _ E p Hin) as K. cbn beta in K.
    now rewrite Nat.eqb_refl in K.
Qed.

(** X22. With pairwise distinct player handles, [remove] leaves the wallet of
    every connected player whose live character does not carry the number of
    the member flagged [isOwner]; when no member is flagged, that is every
    wallet. *)
Theorem remove_keeps_other_wallets (_id : string) (w : World) (faction : Factions.t)
  (q : Player.t) :
  findFactionById _id w = Some faction ->
  NoDup (map Player.handle (players w)) ->
  In q (players w) ->
  isOwnerIdentifier (Character.id (Player.document q))
    (option_map Member.id
       (find Member.isOwner (JsObject.values (Factions.members faction)))) = false ->
  walletOf (Player.handle q) (snd (remove _id w)) = walletOf (Player.handle q) w.
Proof.
  intros H Hn Hq Ho. rewrite (@remove_wallet _id w faction (Player.handle q) H Hn).
  rewrite creditsDue_zero.
  - destruct (walletOf (Player.handle q) w); simpl; [now rewrite Z.add_0_r|reflexivity].
  - intros m _. unfold creditsMember.
    destruct (byCharacter (Character._id m) w) as [p|] eqn:Ep; [|reflexivity].
    destruct (Nat.eqb (Player.handle p) (Player.handle q)) eqn:E;
      [|now rewrite andb_false_r].
    apply Nat.eqb_eq in E. destruct (byCharacter_In _ _ Ep) as [Hp _].
    rewrite (@NoDup_map_eq _ _ Player.handle _ p q Hn Hp Hq E), Ho.
    now rewrite andb_false_r.
Qed.

(** X22 (witness): a connected player who is character 8, not the owner. *)
Lemma remove_keeps_other_wallets_witness :
  walletOf 2 (snd (remove "f1" (setPlayers [Player.mk 2 true bo 5] offlineWorld))) =
  walletOf 2 (setPlayers [Player.mk 2 true bo 5] offlineWorld).
Proof.
  apply (@remove_keeps_other_wallets "f1" (setPlayers [Player.mk 2 true bo 5] offlineWorld)
           redTeam (Player.mk 2 true bo 5)).
  - reflexivity.
  - simpl. constructor; [intros []|constructor].
  - now left.
  - reflexivity.
Defined.

(** X23. With pairwise distinct player handles and pairwise distinct
    character document identifiers: when a stored character references the
    faction and the player connected as that character is valid and carries
    the number of the member flagged [isOwner], a successful [remove] raises
    that player's wallet by exactly the bank of the faction. *)
Theorem remove_credits_connected_owner (_id : string) (w : World) (faction : Factions.t)
  (owner : Member.t) (c : Character.t) (p : Player.t) :
  findFactionById _id w = Some faction ->
  NoDup (map Player.handle (players w)) ->
  NoDup (map Character._id (CharactersCollection (database w))) ->
  find Member.isOwner (JsObject.values (Factions.members faction)) = Some owner ->
  In c (CharactersCollection (database w)) ->
  db.sameReference (Character.faction c) (Factions._id faction) = true ->
  byCharacter (Character._id c) w = Some p ->
  Player.valid p = true ->
  Character.id (Player.document p) = Member.id owner ->
  walletOf (Player.handle p) w = Some (Player.currency p) /\
  walletOf (Player.handle p) (snd (remove _id w)) =
    Some (Player.currency p + Factions.bank faction).
Proof.
  intros H Hn Hd Ho Hc Hf Hp Hv Hid.
  destruct (byCharacter_In _ _ Hp) as [Hin Hpc].
  assert (Hw : walletOf (Player.handle p) w = Some (Player.currency p)).
  { unfold walletOf. now rewrite (@find_by_handle _ p Hn Hin). }
  split; [exact Hw|].
  rewrite (@remove_wallet _id w faction (Player.handle p) H Hn), Hw, Ho. simpl. f_equal. f_equal.
  apply creditsDue_single with (c := c).
  - now apply members_distinct.
  - apply filter_In. now split.
  - unfold creditsMember. rewrite Hp, Hv, Hid. simpl.
    now rewrite Z.eqb_refl, Nat.eqb_refl.
  - intros m _ Hm. unfold creditsMember in Hm.
    destruct (byCharacter (Character._id m) w) as [p'|] eqn:Ep; [|discriminate].
    apply andb_true_iff in Hm. destruct Hm as [_ Hm]. apply Nat.eqb_eq in Hm.
    destruct (byCharacter_In _ _ Ep) as [Hin' Hpm].
    rewrite <- Hpm, <- Hpc.
    now rewrite (@NoDup_map_eq _ _ Player.handle _ p' p Hn Hin' Hin Hm).
Qed.

(** X23 (witness): the connected owner of the example world. *)
Lemma remove_credits_connected_owner_witness :
  walletOf 1 onlineWorld = Some 50 /\
  walletOf 1 (snd (remove "f1" onlineWorld)) = Some (50 + 1000).
Proof.
  apply (@remove_credits_connected_owner "f1" onlineWorld redTeam
           (Member.mk 7 "Ana" true "g0" true) ana (Player.mk 1 true ana 50)).
  - reflexivity.
  - simpl. constructor; [intros []|constructor].
  - simpl. repeat constructor; simpl; intuition discriminate.
  - reflexivity.
  - now left.
  - reflexivity.
  - reflexivity.
  - reflexivity.
  - reflexivity.
Defined.

Lemma Forall2_pick (A : Type) (R : A -> A -> Prop) (l l' : list A) :
  Forall2 R l l' ->
  (forall u, In u l -> exists v, In v l' /\ R u v) /\
  (forall v, In v l' -> exists u, In u l /\ R u v).
Proof.
  intros H. induction H as [|x y r r' Hxy Hl [IH1 IH2]]; split.
  - intros u Hu. destruct Hu.
  - intros v Hv. destruct Hv.
  - intros u [<-|Hu]; [exists y; simpl; auto|].
    destruct (IH1 u Hu) as [v [Hv Hr]]. exists v. simpl. auto.
  - intros v [<-|Hv]; [exists x; simpl; auto|].
    destruct (IH2 v Hv) as [u [Hu Hr]]. exists u. simpl. auto.
Qed.

Lemma cleared_stays (i : string) (l l' : list Character.t) :
  Forall2 onlyCleared l l' ->
  (forall x, In x l -> Character._id x = i -> Character.faction x = Some "") ->
  forall y, In y l' -> Character._id y = i -> Character.faction y = Some "".
Proof.
  intros H Hc y Hy Hi. destruct (proj2 (Forall2_pick H) y Hy) as [x [Hx [-> | ->]]].
  - now apply Hc.
  - reflexivity.
Qed.

Lemma detachMember_clears (faction : Factions.t) (owner : option Z) (a : World)
  (member : Character.t) (p : Player.t) :
  byCharacter (Character._id member) a = Some p ->
  Player.valid p = true ->
  forall y, In y (CharactersCollection (database (detachMember faction owner a member))) ->
    Character._id y = Character._id member -> Character.faction y = Some "".
Proof.
  intros Hp Hv y. unfold detachMember. rewrite Hp, Hv.
  destruct (byCharacter_In _ _ Hp) as [_ Hpc].
  assert (K : forall z,
            In z (CharactersCollection (database (characterSetFaction p "" a))) ->
            Character._id z = Character._id member -> Character.faction z = Some "").
  { simpl. intros z Hz Hi. apply in_map_iff in Hz. destruct Hz as [x [Hx _]].
    destruct (String.eqb_spec (Character._id (Player.document p)) (Character._id x))
      as [_|Hne].
    - now subst z.
    - subst z. congruence. }
  destruct (isOwnerIdentifier _ owner); apply K.
Qed.

Lemma detachAll_characters (faction : Factions.t) (owner : option Z)
  (members : list Character.t) (a : World) :
  Forall2 onlyCleared (CharactersCollection (database a))
    (CharactersCollection (database (fold_left (detachMember faction owner) members a))).
Proof.
  apply (@fold_left_preserves _ _
           (fun b => Forall2 onlyCleared (CharactersCollection (database a))
                             (CharactersCollection (database b)))).
  - intros b m Hb. eapply Forall2_onlyCleared_trans; [exact Hb|].
    apply detachMember_characters.
  - apply Forall2_onlyCleared_refl.
Qed.

Lemma detachAll_clears (faction : Factions.t) (owner : option Z) (w : World)
  (i : string) (p : Player.t) (members : list Character.t) (a : World) :
  byCharacter i w = Some p ->
  Player.valid p = true ->
  NoDup (map Player.handle (players a)) ->
  map playerIdentity (players a) = map playerIdentity (players w) ->
  (exists m, In m members /\ Character._id m = i) ->
  forall y,
    In y (CharactersCollection
            (database (fold_left (detachMember faction owner) members a))) ->
    Character._id y = i -> Character.faction y = Some "".
Proof.
  intros Hp Hv. revert a.
  induction members as [|m l IH]; intros a Hn Hi [c [Hin Hc]]; [destruct Hin|].
  simpl. destruct (detachMember_players faction owner a m Hn) as [Hi' _].
  assert (Hn' : NoDup (map Player.handle (players (detachMember faction owner a m)))).
  { now rewrite handles_of_identity, Hi', <- handles_of_identity. }
  destruct (string_dec (Character._id m) i) as [Hm|Hm].
  - intros y Hy Hyi.
    eapply cleared_stays;
      [apply (detachAll_characters faction owner l (detachMember faction owner a m))
      | |exact Hy|exact Hyi].
    intros x Hx Hxi.
    pose proof (byCharacter_identity i a w Hi) as K. rewrite Hp in K.
    destruct (byCharacter i a) as [pa|] eqn:Ea; [|discriminate].
    simpl in K. unfold playerIdentity in K.
    assert (Hva : Player.valid pa = true) by congruence.
    rewrite <- Hm in Ea, Hxi.
    exact (@detachMember_clears faction owner a m pa Ea Hva x Hx Hxi).
  - apply IH; [exact Hn'|congruence|].
    destruct Hin as [->|Hin]; [contradiction|]. now exists c.
Qed.

Lemma disposeAll_characters (vehicles : list Vehicle.t) (w : World) :
  CharactersCollection (database (fold_left disposeVehicle vehicles w)) =
  CharactersCollection (database w).
Proof.
  revert w. induction vehicles as [|x r IH]; intros w; simpl; [reflexivity|].
  now rewrite IH.
Qed.

(** X24. With pairwise distinct player handles: when a stored character
    references the faction and a valid player is connected as that character,
    a successful [remove] stores the empty string as the [faction] reference
    of every document with that character's [_id]. *)
Theorem remove_clears_connected_member (_id : string) (w : World) (faction : Factions.t)
  (c : Character.t) (p : Player.t) :
  findFactionById _id w = Some faction ->
  NoDup (map Player.handle (players w)) ->
  In c (CharactersCollection (database w)) ->
  db.sameReference (Character.faction c) (Factions._id faction) = true ->
  byCharacter (Character._id c) w = Some p ->
  Player.valid p = true ->
  persistedFaction (Character._id c) (snd (remove _id w)) = Some (Some "") /\
  (forall y, In y (CharactersCollection (database (snd (remove _id w)))) ->
             Character._id y = Character._id c -> Character.faction y = Some "").
Proof.
  intros H Hn Hc Hf Hp Hv.
  assert (K : forall y, In y (CharactersCollection (database (snd (remove _id w)))) ->
                        Character._id y = Character._id c -> Character.faction y = Some "").
  { unfold findFactionById in H. unfold remove. rewrite H. cbn [snd].
    rewrite disposeAll_characters.
    apply (@detachAll_clears faction _ w (Character._id c) p); auto.
    exists c. split; [|reflexivity]. apply filter_In. now split. }
  split; [|exact K]. unfold persistedFaction.
  destruct (find (fun x => String.eqb (Character._id x) (Character._id c))
                 (CharactersCollection (database (snd (remove _id w))))) as [y|] eqn:E.
  - apply find_some in E. destruct E as [Hy E]. apply String.eqb_eq in E.
    simpl. now rewrite (K y Hy E).
  - exfalso. destruct (proj1 (Forall2_pick (remove_characters _id w)) c Hc)
      as [y [Hy Hr]].
    pose proof (find_none _ _ E y Hy) as N. cbn beta in N.
    destruct Hr as [-> | ->]; simpl in N; now rewrite String.eqb_refl in N.
Qed.

(** X24 (witness): the connected owner of the example world. *)
Lemma remove_clears_connected_member_witness :
  persistedFaction (Character._id ana) (snd (remove "f1" onlineWorld)) = Some (Some "") /\
  (forall y, In y (CharactersCollection (database (snd (remove "f1" onlineWorld)))) ->
             Character._id y = Character._id ana -> Character.faction y = Some "").
Proof.
  apply (@remove_clears_connected_member "f1" onlineWorld redTeam ana
           (Player.mk 1 true ana 50)).
  - reflexivity.
  - simpl. constructor; [intros []|constructor].
  - now left.
  - reflexivity.
  - reflexivity.
  - reflexivity.
Defined.

(** X25. [remove] does not free the name of a faction: whatever identifier is
    removed, a name that a stored faction document held before is still
    refused by [create] afterwards, and that [create] changes nothing. *)
Theorem remove_keeps_name_taken (_id : string) (w : World) (env : CreateEnv)
  (owner : Z) (core : FactionCore.t) (name : string) (d : Document) :
  FactionCore.factionName core = Some name ->
  In d (FactionsCollection (database w)) ->
  db.hasName name d = true ->
  succeeded (fst (create env owner core (snd (remove _id w)))) = false /\
  snd (create env owner core (snd (remove _id w))) = snd (remove _id w).
Proof.
  intros Hn Hin Hd. apply (@create_taken_name env owner core _ name d); auto.
  now rewrite remove_keeps_FactionsCollection.
Qed.

(** X25 (witness): "Red  Team" is removed and asked for again. *)
Lemma remove_keeps_name_taken_witness :
  succeeded (fst (create (exampleEnv (Some "f2")) 9
                    (FactionCore.mk (Some "Red  Team") None)
                    (snd (remove "f1" offlineWorld)))) = false /\
  snd (create (exampleEnv (Some "f2")) 9 (FactionCore.mk (Some "Red  Team") None)
         (snd (remove "f1" offlineWorld))) = snd (remove "f1" offlineWorld).
Proof.
  apply (@remove_keeps_name_taken "f1" offlineWorld (exampleEnv (Some "f2")) 9
           (FactionCore.mk (Some "Red  Team") None) "Red  Team"
           (mkDocument "f1" (db.encode redTeam))).
  - reflexivity.
  - now left.
  - reflexivity.
Defined.
